(** * LEO-Py example scripts: a shallow embedding and its properties

    The development follows [examples/example_lognorm.py] and
    [examples/example_lognorm_MAR.py].  Both scripts add measurement noise
    to correlated log-normal data, build the input table of the likelihood
    engine and wrap the engine's density evaluation [like.p] in a
    minus-log-likelihood objective handed to an external minimiser.

    Conventions of the embedding.
    - A binary64 number is idealised as a real number ([R]); a cell that may
      hold NaN or an infinity is a [float], with these markers explicit.
      Rounding is outside the model; the one effect of binary64 that is
      modelled is the underflow of [np.exp] to zero (see [np_exp]).
    - A one-dimensional numpy array is a [list]; a two-column array is a list
      of pairs, one pair per row (column 0 is [fst], column 1 is [snd]).
    - The error-free sample [y_true] and the random draws ([randn],
      [bernoulli.rvs]) are inputs of the data-generation functions.
    - The objective wrappers are programs over two events, the engine's
      density evaluation and numpy's element-wise logarithm, so that a
      theorem can say which calls a wrapper makes. *)

From Stdlib Require Import String DecimalString Reals Lra Lia Bool Arith List.
Import ListNotations.
Open Scope R_scope.

(* ------------------------------------------------------------------ *)
(** ** numpy helpers *)

Module Np.

(** Comparisons, as the boolean arrays numpy computes element by element. *)
Definition ltb (a b : R) : bool := if Rlt_dec a b then true else false.
Definition gtb (a b : R) : bool := ltb b a.
Definition eqb (a b : R) : bool := if Req_dec_T a b then true else false.

(** [a[sel]] for a boolean mask [sel]: the entries of [a] whose mask is
    true, in order. *)
Fixpoint mask_select {A : Type} (sel : list bool) (a : list A) : list A :=
  match sel, a with
  | s :: sel', v :: a' =>
      if s then v :: mask_select sel' a' else mask_select sel' a'
  | _, _ => []
  end.

(** [a[sel] = vals] for a boolean mask [sel]: the selected positions of [a]
    are overwritten with the successive entries of [vals]. *)
Fixpoint mask_assign {A : Type} (sel : list bool) (a vals : list A) : list A :=
  match sel, a with
  | s :: sel', v :: a' =>
      if s then
        match vals with
        | w :: vals' => w :: mask_assign sel' a' vals'
        | [] => v :: mask_assign sel' a' []
        end
      else v :: mask_assign sel' a' vals
  | _, _ => a
  end.

(** [a[sel] = c] for a scalar [c]. *)
Fixpoint mask_fill {A : Type} (sel : list bool) (a : list A) (c : A) : list A :=
  match sel, a with
  | s :: sel', v :: a' => (if s then c else v) :: mask_fill sel' a' c
  | _, _ => a
  end.

Definition ones_like {A : Type} (a : list A) : list R := map (fun _ => 1) a.
Definition zeros_like {A : Type} (a : list A) : list R := map (fun _ => 0) a.

(** [np.sum] of a real array and of a boolean array (the number of trues). *)
Definition sum (a : list R) : R := fold_right Rplus 0 a.
Definition count (b : list bool) : nat := length (filter (fun x => x) b).

Definition any (b : list bool) : bool := existsb (fun x => x) b.

End Np.

(** Element-wise binary operation on two arrays of the same length. *)
Definition map2 {A B C : Type} (f : A -> B -> C) (a : list A) (b : list B)
  : list C :=
  map (fun ab => f (fst ab) (snd ab)) (combine a b).

(* ------------------------------------------------------------------ *)
(** ** The helper [logistic] of the MAR example *)

(** [np.exp] on one binary64 number.  At or below -746 the result is exactly
    zero: exp(-746) lies below 2^-1075, half the smallest positive binary64
    number, so the value rounds to 0.  Above that the result is the real
    exponential, rounding not being modelled. *)
Definition np_exp (x : R) : R := if Rle_dec x (-746) then 0 else exp x.


(** [x[sel]] for [sel = x < 20]: the arguments on which [logistic]
    evaluates [np.exp]. *)
Definition logistic_exp_args (x : list R) : list R :=
  Np.mask_select (map (fun v => Np.ltb v 20) x) x.

(** [np.exp(x[sel]) + 1.]: the denominators by which [logistic] divides. *)
Definition logistic_denominators (x : list R) : list R :=
  map (fun v => np_exp v + 1) (logistic_exp_args x).

(** [logistic], statement by statement:
    [res = np.ones_like(x); sel = x < 20;
     res[sel] = np.exp(x[sel]) / (np.exp(x[sel]) + 1.); return res]. *)
Definition logistic (x : list R) : list R :=
  let res := Np.ones_like x in
  let sel := map (fun v => Np.ltb v 20) x in
  Np.mask_assign sel res
    (map2 Rdiv (map np_exp (logistic_exp_args x)) (logistic_denominators x)).

(** The entry of [logistic] for one input value. *)
Definition logistic1 (v : R) : R :=
  if Rlt_dec v 20 then np_exp v / (np_exp v + 1) else 1.

(* ------------------------------------------------------------------ *)
(** ** Numbers that may be NaN or infinite *)

Inductive float : Type :=
| NaN
| PInf
| NInf
| Num (r : R).

Definition isnan (f : float) : bool :=
  match f with NaN => true | _ => false end.

Definition fadd (a b : float) : float :=
  match a, b with
  | NaN, _ | _, NaN => NaN
  | PInf, NInf | NInf, PInf => NaN
  | PInf, _ | _, PInf => PInf
  | NInf, _ | _, NInf => NInf
  | Num x, Num y => Num (x + y)
  end.

Definition fneg (a : float) : float :=
  match a with
  | NaN => NaN
  | PInf => NInf
  | NInf => PInf
  | Num x => Num (- x)
  end.

(** Division by a positive count (the scripts divide by [Ndata]). *)
Definition fdiv_pos (a : float) (n : R) : float :=
  match a with
  | Num x => Num (x / n)
  | other => other
  end.

(** [np.sum] of an array of such numbers. *)
Definition fsum (a : list float) : float := fold_right fadd (Num 0) a.

(** [np.log] of one entry: the logarithm of a positive number, minus
    infinity at zero, NaN below zero. *)
Definition np_log (v : R) : float :=
  if Rlt_dec 0 v then Num (ln v)
  else if Req_dec_T v 0 then NInf else NaN.

(* ------------------------------------------------------------------ *)
(** ** The external numerical routines the scripts call *)

(** A 2x2 matrix [[m00, m01], [m10, m11]]. *)
Record mat2 : Type := Mat2 { m00 : R; m01 : R; m10 : R; m11 : R }.

(** [np.linalg.eigvalsh] on a 2x2 matrix: the eigenvalues of the symmetric
    matrix given by the lower triangle (numpy's default [UPLO='L']), in
    ascending order. *)
Definition eigvalsh (M : mat2) : list R :=
  let mid := (m00 M + m11 M) / 2 in
  let rad := sqrt (((m00 M - m11 M) / 2) ^ 2 + (m10 M) ^ 2) in
  [mid - rad; mid + rad].

(** Determinant of [M - lam * I], whose roots are the eigenvalues. *)
Definition charpoly (M : mat2) (lam : R) : R :=
  (m00 M - lam) * (m11 M - lam) - m01 M * m10 M.

Module Scipy.

(** [scipy.stats.bernoulli.rvs(p)] for one entry, by inversion of a uniform
    draw [u] from [0, 1): the outcome is 1 exactly when [u < p]. *)
Definition bernoulli_rvs (u p : R) : bool := Np.ltb u p.

End Scipy.

(* ------------------------------------------------------------------ *)
(** ** Two-column arrays and data frames *)

(** The two tracked dimensions (D = 2 in both scripts). *)
Inductive dim : Type := D0 | D1.

Definition dim_index (i : dim) : nat :=
  match i with D0 => 0%nat | D1 => 1%nat end.

(** [row[i]] and [a[:, i]]. *)
Definition at_dim {A : Type} (i : dim) (row : A * A) : A :=
  match i with D0 => fst row | D1 => snd row end.

Definition column {A : Type} (i : dim) (a : list (A * A)) : list A :=
  map (at_dim i) a.

(** [a[:, i] = col]: column [i] of [a] replaced, the other column kept. *)
Definition set_column {A : Type} (i : dim) (a : list (A * A)) (col : list A)
  : list (A * A) :=
  match i with
  | D0 => combine col (column D1 a)
  | D1 => combine (column D0 a) col
  end.

(** [np.array(cols).T] for a list of equally long columns: row [j] of the
    result lists entry [j] of every column. *)
Fixpoint transpose {A : Type} (cols : list (list A)) : list (list A) :=
  match cols with
  | [] => []
  | c :: rest =>
      match rest with
      | [] => map (fun a => [a]) c
      | _ => map2 cons c (transpose rest)
      end
  end.

(** A [pandas.DataFrame]: column names and the rows of the table. *)
Record DataFrame : Type := mkDataFrame {
  df_columns : list string;
  df_rows : list (list float)
}.

(** [pd.DataFrame(np.array(cols).T, columns=names)]. *)
Definition make_df (cols : list (list float)) (names : list string)
  : DataFrame :=
  mkDataFrame names (transpose cols).

(** Position of a column name. *)
Fixpoint index_of (name : string) (names : list string) : option nat :=
  match names with
  | [] => None
  | n :: rest =>
      if String.eqb name n then Some 0%nat
      else option_map S (index_of name rest)
  end.

(** [df[name]]: the column called [name], one optional cell per row. *)
Definition df_col (df : DataFrame) (name : string)
  : option (list (option float)) :=
  match index_of name (df_columns df) with
  | Some k => Some (map (fun row => nth_error row k) (df_rows df))
  | None => None
  end.

(** The column names of the input table contract, [v{i}] and [e_v{i}]. *)
Definition value_name (i : nat) : string :=
  String.append "v" (DecimalString.NilEmpty.string_of_uint (Nat.to_uint i)).
Definition uncertainty_name (i : nat) : string :=
  String.append "e_v" (DecimalString.NilEmpty.string_of_uint (Nat.to_uint i)).

(** The table both scripts build from a value array [ly] and an uncertainty
    array [ley]:
    [pd.DataFrame(np.array([ly[:, 0], ly[:, 1], ley[:, 0], ley[:, 1]]).T,
                  columns=['v0', 'v1', 'e_v0', 'e_v1'])]. *)
Definition table_of (ly : list (float * float)) (ley : list (R * R))
  : DataFrame :=
  make_df [column D0 ly; column D1 ly;
           map Num (column D0 ley); map Num (column D1 ley)]
          ["v0"; "v1"; "e_v0"; "e_v1"]%string.

(* ------------------------------------------------------------------ *)
(** ** The likelihood engine, as the scripts use it *)

(** The arguments of one density evaluation
    [like.p(loc_true, scale_true, shape_true=shape_true, R_true=R)]. *)
Record p_args : Type := mkArgs {
  a_loc : list R;
  a_scale : list R;
  a_shape : list R;
  a_R : mat2
}.

Module Leopy.

Inductive family : Type := norm | lognorm.

(** One record of the store: the observed values of a sample and the
    parallel measurement uncertainties; a missing value is NaN. *)
Record observation : Type := mkObservation {
  values : list float;
  uncertainties : list float
}.

Record Store : Type := mkStore {
  label : string;
  observations : list observation
}.

Definition all_some {A : Type} (l : list (option A)) : option (list A) :=
  fold_right (fun o acc =>
                match o, acc with
                | Some a, Some r => Some (a :: r)
                | _, _ => None
                end) (Some []) l.

(** Modelled from the spec: the constructor [leopy.Observation] is not among
    the example sources.  Following the store's contract, the table must
    decompose into D value columns [v0 .. v{D-1}] and D paired uncertainty
    columns [e_v0 .. e_v{D-1}] and must not be empty; otherwise construction
    fails (the spec's ShapeError, here [None]).  The store keeps one record
    per table row, in table order. *)
Definition Observation (df : DataFrame) (name : string) : option Store :=
  let D := Nat.div (length (df_columns df)) 2 in
  let cell row nm :=
    match index_of nm (df_columns df) with
    | Some k => nth_error row k
    | None => None
    end in
  let record row :=
    match all_some (map (fun i => cell row (value_name i)) (seq 0 D)),
          all_some (map (fun i => cell row (uncertainty_name i)) (seq 0 D))
    with
    | Some vs, Some es => Some (mkObservation vs es)
    | _, _ => None
    end in
  match D, df_rows df with
  | O, _ => None
  | _, [] => None
  | _, rows => option_map (mkStore name) (all_some (map record rows))
  end.

(** An engine bound to a store and to its distribution families
    ([p_cond] is optional). *)
Record Likelihood : Type := mkLikelihood {
  store : Store;
  p_true : family;
  p_cond : option family
}.

(** The observed cells of a record: dimension index, value and uncertainty
    of every dimension whose value is not missing. *)
Definition observed_dims (o : observation) : list (nat * (float * float)) :=
  filter (fun c => negb (isnan (fst (snd c))))
         (combine (seq 0 (length (values o)))
                  (combine (values o) (uncertainties o))).

Section Density.

(** The joint density of a non-empty set of observed dimensions (copula
    density of the observed sub-vector, convolved with the error kernel
    where the uncertainty is non-zero).  Its numerical integration is not
    part of the model. *)
Variable joint : Likelihood -> p_args -> list (nat * (float * float)) -> R.

(** Modelled from the spec: the density evaluation [Likelihood.p] is not
    among the example sources.  A missing dimension contributes no density
    term and is left out of the joint calculation of its row; a row with all
    dimensions missing yields density 1; the result has one entry per
    observation, in the order of the store. *)
Definition density_row (lk : Likelihood) (a : p_args) (o : observation) : R :=
  match observed_dims o with
  | [] => 1
  | obs => joint lk a obs
  end.

Definition p (lk : Likelihood) (a : p_args) : list R :=
  map (density_row lk a) (observations (store lk)).

End Density.
End Leopy.

(* ------------------------------------------------------------------ *)
(** ** Objective wrappers as programs *)

(** The engines the wrappers are bound to: [like] (built with
    [p_cond='norm']) and [like2] (built without [p_cond]). *)
Inductive engine : Type := like | like2.

Inductive exn : Type := IndexError.

(** A wrapper either returns a number, raises, evaluates the density of one
    of the engines, or takes the element-wise logarithm of an array. *)
Inductive Prog : Type :=
| Ret (v : float)
| Raise (e : exn)
| CallP (e : engine) (a : p_args) (k : list R -> Prog)
| NpLog (arr : list R) (k : list float -> Prog).

Inductive event : Type :=
| EvP (e : engine) (a : p_args)
| EvLog (arr : list R).

Inductive outcome : Type :=
| Returned (v : float)
| Crashed (e : exn).

(** Running a wrapper against the engines' density evaluation [p]: the
    outcome and the calls made, in order. *)
Fixpoint run (p : engine -> p_args -> list R) (prog : Prog)
  : outcome * list event :=
  match prog with
  | Ret v => (Returned v, [])
  | Raise e => (Crashed e, [])
  | CallP e a k =>
      let r := run p (k (p e a)) in (fst r, EvP e a :: snd r)
  | NpLog arr k =>
      let r := run p (k (map np_log arr)) in (fst r, EvLog arr :: snd r)
  end.

(** [x[a:b]] and [x[i]]. *)
Definition slice {A : Type} (a b : nat) (x : list A) : list A :=
  firstn (b - a) (skipn a x).

(** [np.sum(pp==0)] and [pp[pp>0]]. *)
Definition count_zero (pp : list R) : nat :=
  Np.count (map (fun v => Np.eqb v 0) pp).
Definition positive_entries (pp : list R) : list R :=
  Np.mask_select (map (fun v => Np.gtb v 0) pp) pp.

(** [np.any(np.linalg.eigvalsh(R) < 0)]. *)
Definition any_negative_eigenvalue (M : mat2) : bool :=
  Np.any (map (fun e => Np.ltb e 0) (eigvalsh M)).

(** The correlation matrix [np.array([[1., rho], [rho, 1.]])]. *)
Definition corr (rho : R) : mat2 := Mat2 1 rho rho 1.

(** [scipy.optimize.Bounds(lb, ub)]; an infinite bound is [None]. *)
Record Bounds : Type := mkBounds {
  lb : list (option R);
  ub : list (option R)
}.

Definition within (lo hi : option R) (v : R) : Prop :=
  match lo with Some l => l <= v | None => True end /\
  match hi with Some h => v <= h | None => True end.

(** A parameter vector satisfies the bounds when it has one entry per bound
    and every entry lies between its lower and its upper bound. *)
Definition satisfies (b : Bounds) (x : list R) : Prop :=
  Forall2 (fun lh v => within (fst lh) (snd lh) v) (combine (lb b) (ub b)) x.

(* ------------------------------------------------------------------ *)
(** ** Data generation shared by the two scripts *)

(** [ey = np.zeros_like(y); ey[:, 0] = s0; ey[:, 1] = s1]. *)
Definition make_ey {A : Type} (y : list (A * A)) (s0 s1 : R) : list (R * R) :=
  let ey := map (fun _ => (0, 0)) y in
  let ey := set_column D0 ey (map (fun _ => s0) ey) in
  set_column D1 ey (map (fun _ => s1) ey).

(** [y[:, 0] += ey[:, 0] * n0; y[:, 1] += ey[:, 1] * n1] for the standard
    normal draws [n0] and [n1]. *)
Definition add_noise (y ey : list (R * R)) (n0 n1 : list R) : list (R * R) :=
  let y := set_column D0 y
             (map2 Rplus (column D0 y) (map2 Rmult (column D0 ey) n0)) in
  set_column D1 y
    (map2 Rplus (column D1 y) (map2 Rmult (column D1 ey) n1)).

Definition lift (row : R * R) : float * float := (Num (fst row), Num (snd row)).

(* ------------------------------------------------------------------ *)
(** ** examples/example_lognorm.py *)

Module Lognorm.

Definition Ndata : nat := 300.
Definition rho : R := 0.8.
Definition loc_true : R * R := (0, 2).
Definition scale_true : R * R := (1, 3).
Definition shape_true : R * R := (0.5, 1.5).

Definition ey (y : list (R * R)) : list (R * R) := make_ey y 0.25 0.1.

(** The noisy observations, from the error-free values. *)
Definition y (y_true : list (R * R)) (n0 n1 : list R) : list (R * R) :=
  add_noise y_true (ey y_true) n0 n1.

Definition df (y_true : list (R * R)) (n0 n1 : list R) : DataFrame :=
  table_of (map lift (y y_true n0 n1)) (ey y_true).

(** [f_mlnlike]: minus-log-likelihood per datum, measurement uncertainty
    modelled. *)
Definition f_mlnlike (x : list R) : Prog :=
  let loc_true := slice 0 2 x in
  let scale_true := slice 2 4 x in
  let shape_true := slice 4 6 x in
  match nth_error x 6 with
  | None => Raise IndexError
  | Some rho =>
      let Rm := corr rho in
      if any_negative_eigenvalue Rm then Ret (Num 1000)
      else
        CallP like (mkArgs loc_true scale_true shape_true Rm) (fun pp =>
          if (0 <? count_zero pp)%nat then Ret (Num 1000)
          else NpLog pp (fun l =>
                 Ret (fdiv_pos (fneg (fsum l)) (INR Ndata))))
  end.

(** [f_mlnlike2]: the same objective on the engine built without
    [p_cond]. *)
Definition f_mlnlike2 (x : list R) : Prog :=
  let loc_true := slice 0 2 x in
  let scale_true := slice 2 4 x in
  let shape_true := slice 4 6 x in
  match nth_error x 6 with
  | None => Raise IndexError
  | Some rho =>
      let Rm := corr rho in
      if any_negative_eigenvalue Rm then Ret (Num 1000)
      else
        CallP like2 (mkArgs loc_true scale_true shape_true Rm) (fun pp =>
          if (0 <? count_zero pp)%nat then
            if (count_zero pp <=? 7)%nat then
              NpLog (positive_entries pp) (fun l =>
                Ret (fdiv_pos (fneg (fsum l)) (INR Ndata)))
            else Ret (Num 1000)
          else NpLog pp (fun l =>
                 Ret (fdiv_pos (fneg (fsum l)) (INR Ndata))))
  end.

Definition bounds : Bounds :=
  mkBounds [None; None; Some 1e-3; Some 1e-3; Some 1e-3; Some 1e-3; Some 1e-3]
           [None; None; Some 10; Some 10; Some 10; Some 10; Some (1 - 1e-3)].

(** The starting point of both minimisations. *)
Definition x0 : list R := [0; 0; 1; 1; 1; 1; 0.3].

End Lognorm.

(* ------------------------------------------------------------------ *)
(** ** examples/example_lognorm_MAR.py *)

Module MAR.

Definition Ndata : nat := 500.
Definition rho : R := 0.5.
Definition loc_true : R * R := (0, 2).
Definition scale_true : R * R := (1, 3).
Definition shape_true : R * R := (0.5, 1.5).

Definition ey (y : list (R * R)) : list (R * R) := make_ey y 0.2 0.1.

Definition y_noisy (y_true : list (R * R)) (n0 n1 : list R)
  : list (R * R) :=
  add_noise y_true (ey y_true) n0 n1.

(** The probabilities handed to [bernoulli.rvs]:
    [logistic(y[:, 0]-3.)] for column 1 and [logistic(y[:, 1]-6.)] for
    column 0. *)
Definition m1_prob (y : list (R * R)) : list R :=
  logistic (map (fun v => v - 3) (column D0 y)).
Definition m0_prob (y : list (R * R)) : list R :=
  logistic (map (fun v => v - 6) (column D1 y)).

(** The masks, for the uniform draws [u1] and [u0] behind the two calls of
    [bernoulli.rvs]. *)
Definition m1 (y : list (R * R)) (u1 : list R) : list bool :=
  map2 (fun p u => Scipy.bernoulli_rvs u p) (m1_prob y) u1.
Definition m0 (y : list (R * R)) (u0 : list R) : list bool :=
  map2 (fun p u => Scipy.bernoulli_rvs u p) (m0_prob y) u0.

(** [y[m1, 1] = NaN; y[m0, 0] = NaN], both masks having been drawn from the
    array before either assignment. *)
Definition y_missing (y : list (R * R)) (u1 u0 : list R)
  : list (float * float) :=
  let mask1 := m1 y u1 in
  let mask0 := m0 y u0 in
  let yf := map lift y in
  let yf := set_column D1 yf (Np.mask_fill mask1 (column D1 yf) NaN) in
  set_column D0 yf (Np.mask_fill mask0 (column D0 yf) NaN).

(** [np.all(~np.isnan(y), axis=1)] and [np.all(np.isnan(y), axis=1)]. *)
Definition complete (y : list (float * float)) : list bool :=
  map (fun row => negb (isnan (fst row)) && negb (isnan (snd row))) y.
Definition completely_missing (y : list (float * float)) : list bool :=
  map (fun row => isnan (fst row) && isnan (snd row)) y.

Definition ycc (y : list (float * float)) : list (float * float) :=
  Np.mask_select (complete y) y.
Definition eycc (y : list (float * float)) (ey : list (R * R))
  : list (R * R) :=
  Np.mask_select (complete y) ey.

Definition ncc (y : list (float * float)) : nat := Np.count (complete y).
Definition ncm (y : list (float * float)) : nat :=
  Np.count (completely_missing y).

(** The data of run [irun] of the loop [for irun in range(2)]. *)
Definition ly (irun : nat) (y : list (float * float)) : list (float * float) :=
  if (irun =? 0)%nat then y else ycc y.
Definition ley (irun : nat) (y : list (float * float)) (ey : list (R * R))
  : list (R * R) :=
  if (irun =? 0)%nat then ey else eycc y ey.

Definition df (irun : nat) (y : list (float * float)) (ey : list (R * R))
  : DataFrame :=
  table_of (ly irun y) (ley irun y ey).

Definition obs (irun : nat) (y : list (float * float)) (ey : list (R * R))
  : option Leopy.Store :=
  Leopy.Observation (df irun y ey) "test".

(** [f_mlnlike] of the loop body: minus-log-likelihood of the run's data. *)
Definition f_mlnlike (x : list R) : Prog :=
  let loc_true := slice 0 2 x in
  let scale_true := slice 2 4 x in
  let shape_true := slice 4 6 x in
  match nth_error x 6 with
  | None => Raise IndexError
  | Some rho =>
      let Rm := corr rho in
      CallP like (mkArgs loc_true scale_true shape_true Rm) (fun pp =>
        if (0 <? count_zero pp)%nat then Ret PInf
        else NpLog pp (fun l => Ret (fneg (fsum l))))
  end.

Definition bounds : Bounds :=
  mkBounds [None; None; Some 1e-3; Some 1e-3; Some 1e-3; Some 1e-3; Some 1e-3]
           [None; None; Some 10; Some 10; Some 10; Some 10; Some (1 - 1e-3)].

(** The summary statistics the script prints, for the population and again
    for the optimum:
    [mean = scale * np.exp(0.5*shape**2) + loc] and
    [std = (mean - loc) * np.sqrt(np.exp(shape**2)-1.)]. *)
Definition mean_stat (loc scale shape : list R) : list R :=
  map2 Rplus
       (map2 Rmult scale (map (fun s => exp (0.5 * s ^ 2)) shape)) loc.

(** The arguments [np.exp(shape**2)-1.] of [np.sqrt]. *)
Definition sqrt_args (shape : list R) : list R :=
  map (fun s => exp (s ^ 2) - 1) shape.

Definition std_stat (mean loc shape : list R) : list R :=
  map2 Rmult (map2 Rminus mean loc) (map sqrt (sqrt_args shape)).

(** [mean_opt] and [std_opt] from the optimum [optres.x]. *)
Definition mean_opt (x : list R) : list R :=
  mean_stat (slice 0 2 x) (slice 2 4 x) (slice 4 6 x).
Definition std_opt (x : list R) : list R :=
  std_stat (mean_opt x) (slice 0 2 x) (slice 4 6 x).

Section Engine.

Variable joint
  : Leopy.Likelihood -> p_args -> list (nat * (float * float)) -> R.

(** The density evaluation of the engine the loop body builds,
    [leopy.Likelihood(obs, p_true='lognorm', p_cond='norm', verbosity=-1)]. *)
Definition like_p (st : Leopy.Store) (e : engine) (a : p_args) : list R :=
  Leopy.p joint (Leopy.mkLikelihood st Leopy.lognorm (Some Leopy.norm)) a.

(** One evaluation of the objective in run [irun]; [None] when the store
    cannot be built. *)
Definition objective (irun : nat) (y : list (float * float))
  (ey : list (R * R)) (x : list R) : option (outcome * list event) :=
  match obs irun y ey with
  | Some st => Some (run (like_p st) (f_mlnlike x))
  | None => None
  end.

End Engine.
End MAR.

(* ------------------------------------------------------------------ *)
(** ** Claims of the specification, as properties of programs *)

(** A wrapper rejects by sentinel: whenever the correlation matrix built
    from [x[6]] has a negative eigenvalue, the wrapper returns 1000. and
    makes no call at all (in particular none to the engine). *)
Definition rejects_by_sentinel (w : list R -> Prog) : Prop :=
  forall (p : engine -> p_args -> list R) (x : list R) (rho : R),
    nth_error x 6 = Some rho ->
    any_negative_eigenvalue (corr rho) = true ->
    run p (w x) = (Returned (Num 1000), []).

(** The three minus-log-likelihood wrappers of the two scripts. *)
Definition wrappers : list (list R -> Prog) :=
  [Lognorm.f_mlnlike; Lognorm.f_mlnlike2; MAR.f_mlnlike].

(** The two-run reading of missing-at-random: the probability of deleting a
    cell is the same in two runs that agree on the other column. *)
Definition mar_two_run : Prop :=
  (forall y y', column D0 y = column D0 y' -> MAR.m1_prob y = MAR.m1_prob y')
  /\
  (forall y y', column D1 y = column D1 y' -> MAR.m0_prob y = MAR.m0_prob y').

(** The conditioning values are observed data: wherever a cell is deleted,
    the other cell of the row, on which the deletion was conditioned, is
    still a number in the resulting array. *)
Definition mar_conditioning_observed : Prop :=
  forall (y : list (R * R)) (u1 u0 : list R) (j : nat),
    length u1 = length y -> length u0 = length y ->
    (nth_error (MAR.m1 y u1) j = Some true ->
     exists r c, nth_error (MAR.y_missing y u1 u0) j = Some (Num r, c)) /\
    (nth_error (MAR.m0 y u0) j = Some true ->
     exists c r, nth_error (MAR.y_missing y u1 u0) j = Some (c, Num r)).

(** The input table contract for D = 2, relative to the value rows [ly] and
    the uncertainty rows [ley] the table was built from. *)
Definition follows_contract (df : DataFrame) (ly : list (float * float))
  (ley : list (R * R)) : Prop :=
  df_columns df = ["v0"; "v1"; "e_v0"; "e_v1"]%string /\
  df_columns df = map value_name [0; 1]%nat ++ map uncertainty_name [0; 1]%nat
  /\
  length (df_rows df) = length ly /\
  length ley = length ly /\
  (forall row, In row (df_rows df) -> length row = 4%nat) /\
  (forall i : dim,
     df_col df (value_name (dim_index i))
       = Some (map Some (column i ly)) /\
     df_col df (uncertainty_name (dim_index i))
       = Some (map (fun e => Some (Num e)) (column i ley))).

(** The tables the two scripts hand to [leopy.Observation]: the one of
    example_lognorm.py, and the one of each run of the MAR example.  The
    draws have one entry per sample, and [ey] has the shape of [y]. *)
Inductive example_table
  : DataFrame -> list (float * float) -> list (R * R) -> Prop :=
| table_lognorm (y_true : list (R * R)) (n0 n1 : list R) :
    length n0 = length y_true -> length n1 = length y_true ->
    example_table (Lognorm.df y_true n0 n1)
                  (map lift (Lognorm.y y_true n0 n1)) (Lognorm.ey y_true)
| table_mar (irun : nat) (y : list (float * float)) (ey : list (R * R)) :
    length ey = length y ->
    example_table (MAR.df irun y ey) (MAR.ly irun y) (MAR.ley irun y ey).

(* ------------------------------------------------------------------ *)
(** ** Row-wise forms used in the proofs *)

(** The outcome of both deletions for one row, given its two uniform
    draws. *)
Definition delete_row (r : R * R) (u1 u0 : R) : float * float :=
  (if Scipy.bernoulli_rvs u0 (logistic1 (snd r - 6)) then NaN
   else Num (fst r),
   if Scipy.bernoulli_rvs u1 (logistic1 (fst r - 3)) then NaN
   else Num (snd r)).

(** The four cells of table row j: the two values, then the two
    uncertainties. *)
Definition table_row (c : (float * float) * (R * R)) : list float :=
  [fst (fst c); snd (fst c); Num (fst (snd c)); Num (snd (snd c))].

(** The record the store keeps for one table row. *)
Definition record_of (c : (float * float) * (R * R)) : Leopy.observation :=
  Leopy.mkObservation [fst (fst c); snd (fst c)]
                      [Num (fst (snd c)); Num (snd (snd c))].

(** The arguments a wrapper passes to the engine. *)
Definition args_of (x : list R) (rho : R) : p_args :=
  mkArgs (slice 0 2 x) (slice 2 4 x) (slice 4 6 x) (corr rho).

(** The noisy row built from an error-free row, its uncertainties and its
    two standard normal draws. *)
Definition noisy_row (c : (R * R) * ((R * R) * (R * R))) : R * R :=
  (fst (fst c) + fst (fst (snd c)) * fst (snd (snd c)),
   snd (fst c) + snd (fst (snd c)) * snd (snd (snd c))).

(* ------------------------------------------------------------------ *)
(** ** Lemmas on the numpy helpers *)

Lemma mask_select_filter {A : Type} (f : A -> bool) (a : list A) :
  Np.mask_select (map f a) a = filter f a.
Proof.
  induction a as [|v a IH]; simpl; [reflexivity|].
  destruct (f v); rewrite IH; reflexivity.
Qed.

Lemma count_map {A : Type} (f : A -> bool) (a : list A) :
  Np.count (map f a) = length (filter f a).
Proof.
  unfold Np.count. induction a as [|v a IH]; simpl; [reflexivity|].
  destruct (f v); simpl; rewrite IH; reflexivity.
Qed.

Lemma eqb_true (a b : R) : Np.eqb a b = true <-> a = b.
Proof. unfold Np.eqb. destruct (Req_dec_T a b); split; congruence. Qed.

Lemma ltb_true (a b : R) : Np.ltb a b = true <-> a < b.
Proof. unfold Np.ltb. destruct (Rlt_dec a b); split; auto; discriminate. Qed.

Lemma ltb_false (a b : R) : Np.ltb a b = false <-> b <= a.
Proof.
  unfold Np.ltb. destruct (Rlt_dec a b); split; auto; try discriminate; lra.
Qed.

Lemma count_zero_pos (pp : list R) :
  (0 < count_zero pp)%nat <-> In 0 pp.
Proof.
  unfold count_zero. rewrite count_map.
  induction pp as [|v pp IH]; simpl; [split; [lia|tauto]|].
  destruct (Np.eqb v 0) eqn:E; simpl.
  - apply eqb_true in E. split; [auto|lia].
  - split.
    + intros H. right. apply IH, H.
    + intros [H|H]; [|apply IH, H].
      apply eqb_true in H. congruence.
Qed.

Lemma count_zero_none (pp : list R) :
  (0 <? count_zero pp)%nat = false -> ~ In 0 pp.
Proof.
  intros H Hin. apply count_zero_pos in Hin.
  apply Nat.ltb_ge in H. lia.
Qed.

Lemma positive_entries_pos (pp : list R) (v : R) :
  In v (positive_entries pp) <-> In v pp /\ 0 < v.
Proof.
  unfold positive_entries. rewrite mask_select_filter, filter_In.
  unfold Np.gtb. rewrite ltb_true. tauto.
Qed.

Lemma fsum_log_positive (l : list R) :
  Forall (fun v => 0 < v) l ->
  fsum (map np_log l) = Num (Np.sum (map ln l)).
Proof.
  induction 1 as [|v l Hv _ IH]; [reflexivity|].
  change (fadd (np_log v) (fsum (map np_log l))
          = Num (ln v + Np.sum (map ln l))).
  rewrite IH. unfold np_log.
  destruct (Rlt_dec 0 v); [reflexivity|contradiction].
Qed.

Lemma logistic_pointwise (x : list R) : logistic x = map logistic1 x.
Proof.
  unfold logistic, logistic_denominators, logistic_exp_args, logistic1,
    Np.ones_like, Np.ltb, map2.
  induction x as [|v x IH]; simpl; [reflexivity|].
  destruct (Rlt_dec v 20); simpl; rewrite IH; reflexivity.
Qed.










(* ------------------------------------------------------------------ *)
(** ** Eigenvalues of the correlation matrix *)

Lemma eigvalsh_roots (M : mat2) (lam : R) :
  m01 M = m10 M ->
  (In lam (eigvalsh M) <-> charpoly M lam = 0).
Proof.
  intros Hsym. unfold eigvalsh, charpoly. rewrite Hsym.
  set (mid := (m00 M + m11 M) / 2).
  set (s := ((m00 M - m11 M) / 2) ^ 2 + m10 M ^ 2).
  assert (Hs : 0 <= s).
  { unfold s. pose proof (pow2_ge_0 ((m00 M - m11 M) / 2)).
    pose proof (pow2_ge_0 (m10 M)). lra. }
  pose proof (sqrt_sqrt s Hs) as Hsq.
  pose proof (sqrt_pos s) as Hpos.
  assert (Hcp : (m00 M - lam) * (m11 M - lam) - m10 M * m10 M
                = (lam - mid - sqrt s) * (lam - mid + sqrt s)).
  { replace ((lam - mid - sqrt s) * (lam - mid + sqrt s))
      with ((lam - mid) ^ 2 - sqrt s * sqrt s) by ring.
    rewrite Hsq. unfold mid, s. field. }
  rewrite Hcp. simpl. split.
  - intros [H|[H|[]]]; subst lam; nra.
  - intros H. apply Rmult_integral in H. destruct H as [H|H].
    + right. left. lra.
    + left. lra.
Qed.

Lemma eigvalsh_corr (rho : R) :
  eigvalsh (corr rho) = [1 - Rabs rho; 1 + Rabs rho].
Proof.
  unfold eigvalsh, corr. simpl m00. simpl m11. simpl m10.
  replace ((1 + 1) / 2) with 1 by lra.
  replace (((1 - 1) / 2) ^ 2 + rho ^ 2) with (Rsqr rho)
    by (unfold Rsqr; lra).
  rewrite sqrt_Rsqr_abs. reflexivity.
Qed.

Lemma any_negative_eigenvalue_iff (rho : R) :
  any_negative_eigenvalue (corr rho) = true <-> 1 < Rabs rho.
Proof.
  unfold any_negative_eigenvalue. rewrite eigvalsh_corr.
  pose proof (Rabs_pos rho) as Hp.
  unfold Np.any. simpl.
  destruct (Np.ltb (1 - Rabs rho) 0) eqn:E1.
  - apply ltb_true in E1. simpl. split; [lra|reflexivity].
  - apply ltb_false in E1. simpl.
    destruct (Np.ltb (1 + Rabs rho) 0) eqn:E2.
    + apply ltb_true in E2. lra.
    + simpl. split; [discriminate|lra].
Qed.

Lemma no_negative_eigenvalue (rho : R) :
  Rabs rho <= 1 -> any_negative_eigenvalue (corr rho) = false.
Proof.
  intros H. destruct (any_negative_eigenvalue (corr rho)) eqn:E; [|reflexivity].
  apply any_negative_eigenvalue_iff in E. lra.
Qed.

Lemma satisfies_rho (x : list R) :
  satisfies Lognorm.bounds x ->
  exists rho, nth_error x 6 = Some rho /\ 1e-3 <= rho <= 1 - 1e-3.
Proof.
  unfold satisfies, Lognorm.bounds. simpl. intros H.
  repeat match goal with
         | H : Forall2 _ (_ :: _) _ |- _ => inversion H; clear H; subst
         end.
  match goal with
  | H : within (fst (Some 1e-3, Some (1 - 1e-3))) _ ?v |- _ =>
      exists v; split; [reflexivity|]; unfold within in H; simpl in H; lra
  end.
Qed.

(** C10: for every rho in the declared bound interval [1e-3, 1-1e-3] the
    matrix [[1, rho], [rho, 1]] has the eigenvalues 1-rho and 1+rho, both
    strictly positive; hence for every parameter vector that satisfies the
    bounds, [f_mlnlike] and [f_mlnlike2] do not take the negative-eigenvalue
    branch: they go on to call the engine. *)
Theorem eigen_sentinel_unreachable (rho : R) :
  1e-3 <= rho <= 1 - 1e-3 ->
  eigvalsh (corr rho) = [1 - rho; 1 + rho] /\
  charpoly (corr rho) (1 - rho) = 0 /\
  charpoly (corr rho) (1 + rho) = 0 /\
  0 < 1 - rho /\ 0 < 1 + rho /\
  any_negative_eigenvalue (corr rho) = false /\
  (forall x, satisfies Lognorm.bounds x ->
     exists rho', nth_error x 6 = Some rho' /\
       1e-3 <= rho' <= 1 - 1e-3 /\
       any_negative_eigenvalue (corr rho') = false /\
       (exists k, Lognorm.f_mlnlike x
          = CallP like (mkArgs (slice 0 2 x) (slice 2 4 x) (slice 4 6 x)
                               (corr rho')) k) /\
       (exists k, Lognorm.f_mlnlike2 x
          = CallP like2 (mkArgs (slice 0 2 x) (slice 2 4 x) (slice 4 6 x)
                                (corr rho')) k)).
Proof.
  intros Hrho.
  assert (Habs : forall r, 1e-3 <= r <= 1 - 1e-3 -> Rabs r = r).
  { intros r Hr. apply Rabs_pos_eq. lra. }
  split; [rewrite eigvalsh_corr, (Habs rho Hrho); reflexivity|].
  split; [unfold charpoly, corr; simpl; ring|].
  split; [unfold charpoly, corr; simpl; ring|].
  split; [lra|]. split; [lra|].
  split; [apply no_negative_eigenvalue; rewrite (Habs rho Hrho); lra|].
  intros x Hx. destruct (satisfies_rho x Hx) as [rho' [Hn Hr]].
  assert (Hev : any_negative_eigenvalue (corr rho') = false)
    by (apply no_negative_eigenvalue; rewrite (Habs rho' Hr); lra).
  exists rho'. repeat split; try lra; try assumption.
  - unfold Lognorm.f_mlnlike. rewrite Hn, Hev. eexists. reflexivity.
  - unfold Lognorm.f_mlnlike2. rewrite Hn, Hev. eexists. reflexivity.
Qed.

Lemma eigen_sentinel_unreachable_witness :
  satisfies Lognorm.bounds Lognorm.x0 /\
  any_negative_eigenvalue (corr 0.3) = false.
Proof.
  split.
  - unfold satisfies, Lognorm.bounds, Lognorm.x0, within. simpl.
    repeat constructor; simpl; lra.
  - apply (eigen_sentinel_unreachable 0.3). lra.
Defined.

(* ------------------------------------------------------------------ *)
(** ** The wrappers' guards *)

(** C2, as amended: the two wrappers of example_lognorm.py reject by
    sentinel (1000. and no call at all when the correlation matrix has a
    negative eigenvalue); the wrapper of the MAR example has no eigenvalue
    check and calls the engine for every seven-entry parameter vector. *)
Theorem lognorm_wrappers_reject_by_sentinel :
  rejects_by_sentinel Lognorm.f_mlnlike /\
  rejects_by_sentinel Lognorm.f_mlnlike2 /\
  (forall x rho, nth_error x 6 = Some rho ->
     exists k, MAR.f_mlnlike x
       = CallP like (mkArgs (slice 0 2 x) (slice 2 4 x) (slice 4 6 x)
                            (corr rho)) k).
Proof.
  split; [|split].
  - intros p x rho Hn Hev. unfold Lognorm.f_mlnlike.
    rewrite Hn, Hev. reflexivity.
  - intros p x rho Hn Hev. unfold Lognorm.f_mlnlike2.
    rewrite Hn, Hev. reflexivity.
  - intros x rho Hn. unfold MAR.f_mlnlike. rewrite Hn.
    eexists. reflexivity.
Qed.

Lemma lognorm_wrappers_reject_by_sentinel_witness :
  run (fun _ _ => [1]) (Lognorm.f_mlnlike [0; 0; 1; 1; 1; 1; -2])
  = (Returned (Num 1000), []).
Proof.
  apply (proj1 lognorm_wrappers_reject_by_sentinel) with (rho := -2).
  - reflexivity.
  - apply any_negative_eigenvalue_iff.
    rewrite Rabs_left by lra. lra.
Defined.

(** C2, as stated, fails: at x[6] = -2 the matrix [[1, -2], [-2, 1]] has the
    negative eigenvalue -1, yet the MAR wrapper evaluates the engine's
    density and returns its own result instead of 1000. *)
Lemma mar_wrapper_no_eigen_check :
  ~ (forall w, In w wrappers -> rejects_by_sentinel w).
Proof.
  intros H.
  assert (Hw : In MAR.f_mlnlike wrappers) by (simpl; auto).
  specialize (H _ Hw (fun _ _ => [1]) [0; 0; 1; 1; 1; 1; -2] (-2)
                eq_refl).
  assert (Hev : any_negative_eigenvalue (corr (-2)) = true).
  { apply any_negative_eigenvalue_iff. rewrite Rabs_left by lra. lra. }
  specialize (H Hev). simpl in H.
  apply (f_equal snd) in H. simpl in H. discriminate H.
Qed.

Lemma run_f_mlnlike (p : engine -> p_args -> list R) (x : list R) :
  run p (Lognorm.f_mlnlike x)
  = match nth_error x 6 with
    | None => (Crashed IndexError, [])
    | Some rho =>
        let pp := p like (args_of x rho) in
        if any_negative_eigenvalue (corr rho)
        then (Returned (Num 1000), [])
        else if (0 <? count_zero pp)%nat
        then (Returned (Num 1000), [EvP like (args_of x rho)])
        else (Returned (fdiv_pos (fneg (fsum (map np_log pp)))
                                 (INR Lognorm.Ndata)),
              [EvP like (args_of x rho); EvLog pp])
    end.
Proof.
  unfold Lognorm.f_mlnlike, args_of.
  destruct (nth_error x 6) as [rho|]; [|reflexivity].
  destruct (any_negative_eigenvalue (corr rho)); [reflexivity|].
  simpl. destruct (0 <? count_zero _)%nat; reflexivity.
Qed.

Lemma run_f_mlnlike2 (p : engine -> p_args -> list R) (x : list R) :
  run p (Lognorm.f_mlnlike2 x)
  = match nth_error x 6 with
    | None => (Crashed IndexError, [])
    | Some rho =>
        let pp := p like2 (args_of x rho) in
        if any_negative_eigenvalue (corr rho)
        then (Returned (Num 1000), [])
        else if (0 <? count_zero pp)%nat
        then
          if (count_zero pp <=? 7)%nat
          then (Returned (fdiv_pos
                            (fneg (fsum (map np_log (positive_entries pp))))
                            (INR Lognorm.Ndata)),
                [EvP like2 (args_of x rho); EvLog (positive_entries pp)])
          else (Returned (Num 1000), [EvP like2 (args_of x rho)])
        else (Returned (fdiv_pos (fneg (fsum (map np_log pp)))
                                 (INR Lognorm.Ndata)),
              [EvP like2 (args_of x rho); EvLog pp])
    end.
Proof.
  unfold Lognorm.f_mlnlike2, args_of.
  destruct (nth_error x 6) as [rho|]; [|reflexivity].
  destruct (any_negative_eigenvalue (corr rho)); [reflexivity|].
  simpl. destruct (0 <? count_zero _)%nat; [|reflexivity].
  destruct (count_zero _ <=? 7)%nat; reflexivity.
Qed.

Lemma run_mar_f_mlnlike (p : engine -> p_args -> list R) (x : list R) :
  run p (MAR.f_mlnlike x)
  = match nth_error x 6 with
    | None => (Crashed IndexError, [])
    | Some rho =>
        let pp := p like (args_of x rho) in
        if (0 <? count_zero pp)%nat
        then (Returned PInf, [EvP like (args_of x rho)])
        else (Returned (fneg (fsum (map np_log pp))),
              [EvP like (args_of x rho); EvLog pp])
    end.
Proof.
  unfold MAR.f_mlnlike, args_of.
  destruct (nth_error x 6) as [rho|]; [|reflexivity].
  simpl. destruct (0 <? count_zero _)%nat; reflexivity.
Qed.

Ltac each_wrapper H :=
  unfold wrappers in H; simpl in H;
  destruct H as [<-|[<-|[<-|[]]]];
  [rewrite run_f_mlnlike|rewrite run_f_mlnlike2|rewrite run_mar_f_mlnlike].

Lemma count_zero_filter (pp : list R) :
  count_zero pp
  = length (filter (fun v => if Req_dec_T v 0 then true else false) pp).
Proof. unfold count_zero. rewrite count_map. reflexivity. Qed.

Lemma positive_entries_filter (pp : list R) :
  positive_entries pp
  = filter (fun v => if Rlt_dec 0 v then true else false) pp.
Proof. unfold positive_entries. rewrite mask_select_filter. reflexivity. Qed.

Lemma Ndata_300 : INR Lognorm.Ndata = 300.
Proof. unfold Lognorm.Ndata. rewrite INR_IZR_INZ. reflexivity. Qed.

(** C3: no wrapper takes the logarithm of zero.  Whatever the engine
    returns, no array handed to [np.log] has a zero entry.  When the density
    vector [pp] has a zero entry, [f_mlnlike] returns 1000., the MAR wrapper
    returns +inf, and [f_mlnlike2] returns the partial sum
    -sum(log(pp[pp>0]))/Ndata over the strictly positive entries if at most
    7 entries are zero, and 1000. if more than 7 are.  (The guard on the
    eigenvalues is passed when |x[6]| <= 1; the zero count and the positive
    entries are written out as filters of [pp], and Ndata as 300.) *)
Theorem no_log_of_zero (p : engine -> p_args -> list R) (x : list R)
  (rho : R) :
  nth_error x 6 = Some rho ->
  let a := mkArgs (slice 0 2 x) (slice 2 4 x) (slice 4 6 x) (corr rho) in
  let zeros := fun pp : list R =>
    length (filter (fun v => if Req_dec_T v 0 then true else false) pp) in
  let positive := fun pp : list R =>
    filter (fun v => if Rlt_dec 0 v then true else false) pp in
  (forall w arr, In w wrappers ->
     In (EvLog arr) (snd (run p (w x))) -> ~ In 0 arr) /\
  (Rabs rho <= 1 -> In 0 (p like a) ->
     run p (Lognorm.f_mlnlike x) = (Returned (Num 1000), [EvP like a])) /\
  (In 0 (p like a) ->
     run p (MAR.f_mlnlike x) = (Returned PInf, [EvP like a])) /\
  (Rabs rho <= 1 -> In 0 (p like2 a) -> (zeros (p like2 a) <= 7)%nat ->
     run p (Lognorm.f_mlnlike2 x)
     = (Returned (Num (- fold_right Rplus 0
                           (map ln (positive (p like2 a))) / 300)),
        [EvP like2 a; EvLog (positive (p like2 a))])) /\
  (Rabs rho <= 1 -> (7 < zeros (p like2 a))%nat ->
     run p (Lognorm.f_mlnlike2 x) = (Returned (Num 1000), [EvP like2 a])).
Proof.
  intros Hn a zeros positive.
  assert (Hz : forall pp, zeros pp = count_zero pp)
    by (intros pp; symmetry; apply count_zero_filter).
  assert (Hp : forall pp, positive pp = positive_entries pp)
    by (intros pp; symmetry; apply positive_entries_filter).
  split; [|split; [|split; [|split]]].
  - intros w arr Hw.
    each_wrapper Hw; rewrite Hn; cbv zeta; intros Hin.
    + destruct (any_negative_eigenvalue (corr rho)); [destruct Hin|].
      destruct (0 <? count_zero (p like (args_of x rho)))%nat eqn:E;
        simpl in Hin.
      * destruct Hin as [H|[]]. discriminate H.
      * destruct Hin as [H|[H|[]]]; [discriminate H|].
        injection H as <-. apply count_zero_none, E.
    + destruct (any_negative_eigenvalue (corr rho)); [destruct Hin|].
      destruct (0 <? count_zero (p like2 (args_of x rho)))%nat eqn:E.
      * destruct (count_zero (p like2 (args_of x rho)) <=? 7)%nat;
          simpl in Hin.
        -- destruct Hin as [H|[H|[]]]; [discriminate H|].
           injection H as <-. intros H0.
           apply positive_entries_pos in H0. lra.
        -- destruct Hin as [H|[]]. discriminate H.
      * simpl in Hin. destruct Hin as [H|[H|[]]]; [discriminate H|].
        injection H as <-. apply count_zero_none, E.
    + destruct (0 <? count_zero (p like (args_of x rho)))%nat eqn:E;
        simpl in Hin.
      * destruct Hin as [H|[]]. discriminate H.
      * destruct Hin as [H|[H|[]]]; [discriminate H|].
        injection H as <-. apply count_zero_none, E.
  - intros Hr H0. apply count_zero_pos, Nat.ltb_lt in H0.
    rewrite run_f_mlnlike, Hn. cbv zeta.
    rewrite (no_negative_eigenvalue rho Hr).
    unfold a in H0. fold (args_of x rho) in H0. rewrite H0. reflexivity.
  - intros H0. apply count_zero_pos, Nat.ltb_lt in H0.
    rewrite run_mar_f_mlnlike, Hn. cbv zeta.
    unfold a in H0. fold (args_of x rho) in H0. rewrite H0. reflexivity.
  - intros Hr H0 H7. apply count_zero_pos, Nat.ltb_lt in H0.
    rewrite Hz in H7. apply Nat.leb_le in H7.
    rewrite run_f_mlnlike2, Hn. cbv zeta.
    rewrite (no_negative_eigenvalue rho Hr).
    unfold a in H0, H7. fold (args_of x rho) in H0, H7.
    rewrite H0, H7.
    rewrite fsum_log_positive
      by (apply Forall_forall; intros v Hv;
          apply positive_entries_pos in Hv; tauto).
    rewrite Hp. unfold Np.sum, fdiv_pos, fneg. rewrite Ndata_300.
    reflexivity.
  - intros Hr H7. rewrite Hz in H7.
    unfold a in H7. fold (args_of x rho) in H7.
    assert (H0 : (0 <? count_zero (p like2 (args_of x rho)))%nat = true)
      by (apply Nat.ltb_lt; lia).
    assert (H7' : (count_zero (p like2 (args_of x rho)) <=? 7)%nat = false)
      by (apply Nat.leb_gt; lia).
    rewrite run_f_mlnlike2, Hn. cbv zeta.
    rewrite (no_negative_eigenvalue rho Hr), H0, H7'. reflexivity.
Qed.

Lemma no_log_of_zero_witness :
  run (fun _ _ => [0; 2]) (Lognorm.f_mlnlike2 Lognorm.x0)
  = (Returned (Num (- (ln 2 + 0) / 300)),
     [EvP like2 (mkArgs [0; 0] [1; 1] [1; 1] (corr 0.3)); EvLog [2]]).
Proof.
  destruct (no_log_of_zero (fun _ _ => [0; 2]) Lognorm.x0 0.3 eq_refl)
    as (_ & _ & _ & H & _).
  cbv beta zeta in H.
  assert (E00 : (if Req_dec_T 0 0 then true else false) = true)
    by (destruct (Req_dec_T 0 0); [reflexivity|lra]).
  assert (E20 : (if Req_dec_T 2 0 then true else false) = false)
    by (destruct (Req_dec_T 2 0); [lra|reflexivity]).
  assert (L00 : (if Rlt_dec 0 0 then true else false) = false)
    by (destruct (Rlt_dec 0 0); [lra|reflexivity]).
  assert (L02 : (if Rlt_dec 0 2 then true else false) = true)
    by (destruct (Rlt_dec 0 2); [reflexivity|lra]).
  simpl filter in H. rewrite E00, E20, L00, L02 in H.
  apply H.
  - rewrite Rabs_right by lra. lra.
  - simpl. auto.
  - simpl. lia.
Defined.

(* ------------------------------------------------------------------ *)
(** ** The missingness mechanism of the MAR example *)

Lemma y_missing_rows (y : list (R * R)) :
  forall u1 u0, length u1 = length y -> length u0 = length y ->
  MAR.y_missing y u1 u0
  = map (fun c => delete_row (fst c) (fst (snd c)) (snd (snd c)))
        (combine y (combine u1 u0)).
Proof.
  unfold MAR.y_missing, MAR.m1, MAR.m0, MAR.m1_prob, MAR.m0_prob.
  unfold delete_row, set_column, column, map2.
  induction y as [|r y IH]; intros [|a u1] [|b u0] H1 H0;
    try discriminate; [reflexivity|].
  rewrite !logistic_pointwise in *.
  simpl. f_equal.
  apply IH; simpl in *; congruence.
Qed.

Lemma m1_entry (y : list (R * R)) :
  forall u1 j r u, nth_error y j = Some r -> nth_error u1 j = Some u ->
  nth_error (MAR.m1 y u1) j
  = Some (Scipy.bernoulli_rvs u (logistic1 (fst r - 3))).
Proof.
  unfold MAR.m1, MAR.m1_prob, column, map2. rewrite logistic_pointwise.
  induction y as [|r0 y IH]; intros [|a u1] [|j] r u Hy Hu;
    simpl in *; try discriminate.
  - congruence.
  - apply IH; assumption.
Qed.

Lemma m0_entry (y : list (R * R)) :
  forall u0 j r u, nth_error y j = Some r -> nth_error u0 j = Some u ->
  nth_error (MAR.m0 y u0) j
  = Some (Scipy.bernoulli_rvs u (logistic1 (snd r - 6))).
Proof.
  unfold MAR.m0, MAR.m0_prob, column, map2. rewrite logistic_pointwise.
  induction y as [|r0 y IH]; intros [|a u0] [|j] r u Hy Hu;
    simpl in *; try discriminate.
  - congruence.
  - apply IH; assumption.
Qed.

Lemma nth_error_same_length {A B : Type} (a : list A) (b : list B) (j : nat)
  (v : A) :
  length b = length a -> nth_error a j = Some v ->
  exists w, nth_error b j = Some w.
Proof.
  intros Hl Hv. destruct (nth_error b j) as [w|] eqn:E; [eauto|].
  apply nth_error_None in E.
  assert (j < length a)%nat by (apply nth_error_Some; congruence). lia.
Qed.

Lemma nth_error_combine {A B : Type} (a : list A) :
  forall (b : list B) j v w,
  nth_error a j = Some v -> nth_error b j = Some w ->
  nth_error (combine a b) j = Some (v, w).
Proof.
  induction a as [|x a IH]; intros [|y b] [|j] v w Ha Hb;
    simpl in *; try discriminate.
  - congruence.
  - apply IH; assumption.
Qed.

(** C5, as amended: the probability of deleting column 1 of row j is
    logistic(y[j,0]-3) and that of deleting column 0 is logistic(y[j,1]-6),
    both computed from the measured array before any cell is deleted; two
    arrays that agree on column 0 give the same probabilities and, for the
    same draws, the same mask for column 1, and symmetrically for column 0;
    each cell of the resulting array is NaN exactly when its own mask entry
    is set, whatever happens to the other cell of its row. *)
Theorem mar_missingness_depends_on_other_column :
  mar_two_run /\
  (forall y y' u1, column D0 y = column D0 y' -> MAR.m1 y u1 = MAR.m1 y' u1)
  /\
  (forall y y' u0, column D1 y = column D1 y' -> MAR.m0 y u0 = MAR.m0 y' u0)
  /\
  (forall y j r, nth_error y j = Some r ->
     nth_error (MAR.m1_prob y) j = Some (logistic1 (fst r - 3)) /\
     nth_error (MAR.m0_prob y) j = Some (logistic1 (snd r - 6))) /\
  (forall y u1 u0 j r,
     length u1 = length y -> length u0 = length y ->
     nth_error y j = Some r ->
     exists a b, nth_error u1 j = Some a /\ nth_error u0 j = Some b /\
       nth_error (MAR.m1 y u1) j
         = Some (Scipy.bernoulli_rvs a (logistic1 (fst r - 3))) /\
       nth_error (MAR.m0 y u0) j
         = Some (Scipy.bernoulli_rvs b (logistic1 (snd r - 6))) /\
       nth_error (MAR.y_missing y u1 u0) j = Some (delete_row r a b)).
Proof.
  split; [|split; [|split; [|split]]].
  - split; intros y y' H; unfold MAR.m1_prob, MAR.m0_prob;
      rewrite H; reflexivity.
  - intros y y' u1 H. unfold MAR.m1, MAR.m1_prob. rewrite H. reflexivity.
  - intros y y' u0 H. unfold MAR.m0, MAR.m0_prob. rewrite H. reflexivity.
  - intros y j r H. unfold MAR.m1_prob, MAR.m0_prob, column.
    rewrite !logistic_pointwise, !nth_error_map, H. split; reflexivity.
  - intros y u1 u0 j r H1 H0 Hy.
    destruct (nth_error_same_length y u1 j r H1 Hy) as [a Ha].
    destruct (nth_error_same_length y u0 j r H0 Hy) as [b Hb].
    exists a, b. repeat split; try assumption.
    + apply m1_entry; assumption.
    + apply m0_entry; assumption.
    + rewrite y_missing_rows by assumption.
      rewrite nth_error_map.
      rewrite (nth_error_combine y (combine u1 u0) j r (a, b) Hy
                 (nth_error_combine u1 u0 j a b Ha Hb)).
      reflexivity.
Qed.

Lemma mar_missingness_depends_on_other_column_witness :
  MAR.m1_prob [(1, 2)] = MAR.m1_prob [(1, 5)].
Proof.
  apply (proj1 (proj1 mar_missingness_depends_on_other_column)).
  reflexivity.
Defined.

(** C5, as stated, fails in its last clause: for the row (23, 26) both
    probabilities are logistic(20) = 1, so both cells are deleted whatever
    the draws; the value on which the deletion of column 1 was conditioned
    is itself missing from the resulting array. *)
Lemma mar_conditioning_value_deleted :
  ~ (mar_two_run /\ mar_conditioning_observed).
Proof.
  intros [_ H].
  destruct (H [(23, 26); (1, 1)] [0.5; 0.5] [0.5; 0.5] 0%nat
              eq_refl eq_refl) as [H1 _].
  assert (Hl : logistic1 20 = 1).
  { unfold logistic1. destruct (Rlt_dec 20 20); [lra|reflexivity]. }
  assert (Hb : Scipy.bernoulli_rvs 0.5 1 = true).
  { apply ltb_true. lra. }
  assert (Hm : nth_error (MAR.m1 [(23, 26); (1, 1)] [0.5; 0.5]) 0
               = Some true).
  { rewrite (m1_entry [(23, 26); (1, 1)] [0.5; 0.5] 0%nat (23, 26) 0.5
               eq_refl eq_refl). simpl.
    replace (23 - 3) with 20 by lra. rewrite Hl, Hb. reflexivity. }
  destruct (H1 Hm) as [r [c Hr]].
  rewrite y_missing_rows in Hr by reflexivity.
  simpl in Hr. unfold delete_row in Hr. simpl in Hr.
  replace (26 - 6) with 20 in Hr by lra.
  rewrite Hl, Hb in Hr. discriminate Hr.
Qed.

(* ------------------------------------------------------------------ *)
(** ** Complete cases *)

Lemma mask_select_combine {A B : Type} (mask : list bool) :
  forall (a : list A) (b : list B),
  Np.mask_select mask (combine a b)
  = combine (Np.mask_select mask a) (Np.mask_select mask b).
Proof.
  induction mask as [|m mask IH]; intros [|x a] [|y b]; simpl;
    try reflexivity.
  - destruct m; [|destruct (Np.mask_select mask a)]; reflexivity.
  - destruct m; simpl; rewrite IH; reflexivity.
Qed.

Lemma mask_select_length {A B : Type} (mask : list bool) :
  forall (a : list A) (b : list B), length a = length b ->
  length (Np.mask_select mask a) = length (Np.mask_select mask b).
Proof.
  induction mask as [|m mask IH]; intros [|x a] [|y b] H; simpl in *;
    try reflexivity; try discriminate.
  destruct m; simpl; rewrite (IH a b) by congruence; reflexivity.
Qed.

Lemma mask_select_count {A : Type} (mask : list bool) :
  forall (a : list A), length a = length mask ->
  length (Np.mask_select mask a) = Np.count mask.
Proof.
  unfold Np.count.
  induction mask as [|m mask IH]; intros [|x a] H; simpl in *;
    try reflexivity; try discriminate.
  destruct m; simpl; rewrite IH by congruence; reflexivity.
Qed.

(** The row indices a mask selects, and the rows found there. *)
Lemma mask_select_index {A : Type} (mask : list bool) :
  forall (a : list A) (s k j : nat),
  length a = length mask ->
  nth_error (Np.mask_select mask (seq s (length mask))) k = Some j ->
  (s <= j)%nat /\
  nth_error mask (j - s) = Some true /\
  nth_error (Np.mask_select mask a) k = nth_error a (j - s).
Proof.
  induction mask as [|m mask IH]; intros [|x a] s k j Hl Hk; simpl in *;
    try discriminate.
  - destruct k; discriminate.
  - destruct m.
    + destruct k as [|k]; simpl in *.
      * injection Hk as <-. rewrite Nat.sub_diag. auto.
      * destruct (IH a (S s) k j) as (Hle & Hm & Hn);
          [congruence|assumption|].
        replace (j - s)%nat with (S (j - S s)) by lia.
        simpl. split; [lia|auto].
    + destruct (IH a (S s) k j) as (Hle & Hm & Hn);
        [congruence|assumption|].
      replace (j - s)%nat with (S (j - S s)) by lia.
      simpl. split; [lia|auto].
Qed.

Lemma isnan_false (f : float) : isnan f = false <-> f <> NaN.
Proof. destruct f; simpl; split; congruence. Qed.

(** C7: the complete-case subset of the second run.  [ycc] holds exactly
    the rows of [y] without NaN, in their original order; [eycc] holds the
    uncertainty rows at the same row indices, so that value rows and
    uncertainty rows stay paired; a row with a missing dimension is not
    part of that run. *)
Theorem complete_case_subset (y : list (float * float))
  (ey : list (R * R)) :
  length ey = length y ->
  let keep := fun row : float * float =>
                negb (isnan (fst row)) && negb (isnan (snd row)) in
  MAR.ly 1 y = MAR.ycc y /\
  MAR.ley 1 y ey = MAR.eycc y ey /\
  MAR.ycc y = filter keep y /\
  combine (MAR.ycc y) (MAR.eycc y ey)
    = filter (fun r => keep (fst r)) (combine y ey) /\
  length (MAR.eycc y ey) = length (MAR.ycc y) /\
  length (MAR.ycc y) = MAR.ncc y /\
  (forall k j,
     nth_error (Np.mask_select (MAR.complete y) (seq 0 (length y))) k
       = Some j ->
     nth_error (MAR.ycc y) k = nth_error y j /\
     nth_error (MAR.eycc y ey) k = nth_error ey j) /\
  (forall row, In row (MAR.ycc y) <->
     In row y /\ fst row <> NaN /\ snd row <> NaN) /\
  (forall row, In row y -> isnan (fst row) || isnan (snd row) = true ->
     ~ In row (MAR.ycc y)).
Proof.
  intros Hl keep.
  assert (Hf : MAR.ycc y = filter keep y)
    by (unfold MAR.ycc, MAR.complete; apply mask_select_filter).
  assert (Hlen : length (MAR.complete y) = length y)
    by (unfold MAR.complete; apply length_map).
  assert (Hin : forall row, In row (MAR.ycc y) <->
                  In row y /\ fst row <> NaN /\ snd row <> NaN).
  { intros row. rewrite Hf, filter_In. unfold keep.
    rewrite andb_true_iff, !negb_true_iff, !isnan_false. tauto. }
  split; [reflexivity|]. split; [reflexivity|]. split; [exact Hf|].
  split.
  { unfold MAR.ycc, MAR.eycc. rewrite <- mask_select_combine.
    unfold MAR.complete.
    rewrite <- (mask_select_filter (fun r => keep (fst r)) (combine y ey)).
    f_equal. clear - Hl. revert ey Hl.
    induction y as [|r y IH]; intros [|e ey] Hl; simpl in *;
      try discriminate; [reflexivity|].
    f_equal. apply IH. congruence. }
  split.
  { unfold MAR.ycc, MAR.eycc. apply mask_select_length. exact Hl. }
  split.
  { unfold MAR.ycc, MAR.ncc. apply mask_select_count. congruence. }
  split.
  { intros k j H. rewrite <- Hlen in H. split.
    - destruct (mask_select_index (MAR.complete y) y 0 k j)
        as (_ & _ & Hn); [congruence|assumption|].
      rewrite Nat.sub_0_r in Hn. exact Hn.
    - destruct (mask_select_index (MAR.complete y) ey 0 k j)
        as (_ & _ & Hn); [congruence|assumption|].
      rewrite Nat.sub_0_r in Hn. exact Hn. }
  split; [exact Hin|].
  intros row Hy Hnan Hr. apply Hin in Hr. destruct Hr as [_ [H1 H2]].
  apply isnan_false in H1, H2. rewrite H1, H2 in Hnan. discriminate.
Qed.

Lemma complete_case_subset_witness :
  MAR.ycc [(Num 1, Num 2); (NaN, Num 3); (Num 4, Num 5)]
  = filter (fun row => negb (isnan (fst row)) && negb (isnan (snd row)))
      [(Num 1, Num 2); (NaN, Num 3); (Num 4, Num 5)] /\
  length (MAR.eycc [(Num 1, Num 2); (NaN, Num 3); (Num 4, Num 5)]
                   [(0.2, 0.1); (0.3, 0.4); (0.5, 0.6)])
  = length (MAR.ycc [(Num 1, Num 2); (NaN, Num 3); (Num 4, Num 5)]).
Proof.
  destruct (complete_case_subset
              [(Num 1, Num 2); (NaN, Num 3); (Num 4, Num 5)]
              [(0.2, 0.1); (0.3, 0.4); (0.5, 0.6)] eq_refl)
    as (_ & _ & H1 & _ & H2 & _).
  split; [exact H1|exact H2].
Defined.

(* ------------------------------------------------------------------ *)
(** ** The input table *)

Lemma table_rows (ly : list (float * float)) :
  forall ley : list (R * R), length ley = length ly ->
  df_rows (table_of ly ley) = map table_row (combine ly ley).
Proof.
  unfold table_of, make_df, column, table_row. simpl. unfold map2.
  induction ly as [|r ly IH]; intros [|e ley] H; simpl in *;
    try discriminate; [reflexivity|].
  f_equal. apply IH. congruence.
Qed.

Lemma map_combine_fst {A B C : Type} (f : A -> C) (a : list A) :
  forall b : list B, length b = length a ->
  map (fun c => f (fst c)) (combine a b) = map f a.
Proof.
  induction a as [|x a IH]; intros [|y b] H; simpl in *;
    try discriminate; [reflexivity|].
  f_equal. apply IH. congruence.
Qed.

Lemma map_combine_snd {A B C : Type} (f : B -> C) (a : list A) :
  forall b : list B, length b = length a ->
  map (fun c => f (snd c)) (combine a b) = map f b.
Proof.
  induction a as [|x a IH]; intros [|y b] H; simpl in *;
    try discriminate; [reflexivity|].
  f_equal. apply IH. congruence.
Qed.

Lemma df_col_at (df : DataFrame) (name : string) (k : nat) :
  index_of name (df_columns df) = Some k ->
  df_col df name = Some (map (fun row => nth_error row k) (df_rows df)).
Proof. intros H. unfold df_col. rewrite H. reflexivity. Qed.

Lemma table_of_contract (ly : list (float * float)) (ley : list (R * R)) :
  length ley = length ly -> follows_contract (table_of ly ley) ly ley.
Proof.
  intros Hl. unfold follows_contract.
  split; [reflexivity|]. split; [reflexivity|].
  split.
  { rewrite table_rows, length_map, length_combine by assumption. lia. }
  split; [assumption|].
  split.
  { intros row Hin. rewrite table_rows in Hin by assumption.
    apply in_map_iff in Hin. destruct Hin as [c [<- _]]. reflexivity. }
  intros i. destruct i; simpl dim_index; split.
  - rewrite (df_col_at _ _ 0%nat) by reflexivity.
    rewrite table_rows, map_map by assumption.
    f_equal. unfold column. rewrite map_map.
    apply (map_combine_fst (fun r => Some (fst r))). assumption.
  - rewrite (df_col_at _ _ 2%nat) by reflexivity.
    rewrite table_rows, map_map by assumption.
    f_equal. unfold column. rewrite map_map.
    apply (map_combine_snd (fun e => Some (Num (fst e)))). assumption.
  - rewrite (df_col_at _ _ 1%nat) by reflexivity.
    rewrite table_rows, map_map by assumption.
    f_equal. unfold column. rewrite map_map.
    apply (map_combine_fst (fun r => Some (snd r))). assumption.
  - rewrite (df_col_at _ _ 3%nat) by reflexivity.
    rewrite table_rows, map_map by assumption.
    f_equal. unfold column. rewrite map_map.
    apply (map_combine_snd (fun e => Some (Num (snd e)))). assumption.
Qed.

Lemma set_column_length {A : Type} (i : dim) (a : list (A * A))
  (col : list A) :
  length col = length a -> length (set_column i a col) = length a.
Proof.
  intros H. destruct i; unfold set_column, column;
    rewrite length_combine, length_map; lia.
Qed.

Lemma map2_length {A B C : Type} (f : A -> B -> C) (a : list A)
  (b : list B) :
  length b = length a -> length (map2 f a b) = length a.
Proof.
  intros H. unfold map2. rewrite length_map, length_combine. lia.
Qed.

Lemma make_ey_length {A : Type} (y : list (A * A)) (s0 s1 : R) :
  length (make_ey y s0 s1) = length y.
Proof.
  unfold make_ey.
  set (ey0 := map (fun _ : A * A => (0, 0)) y).
  assert (H0 : length ey0 = length y) by apply length_map.
  assert (H1 : length (set_column D0 ey0 (map (fun _ => s0) ey0))
               = length y).
  { rewrite set_column_length; [exact H0|apply length_map]. }
  rewrite set_column_length; [exact H1|apply length_map].
Qed.

Lemma noisy_column_length (i : dim) (y ey : list (R * R)) (n : list R) :
  length ey = length y -> length n = length y ->
  length (map2 Rplus (column i y) (map2 Rmult (column i ey) n))
  = length y.
Proof.
  intros He Hn. unfold column.
  rewrite map2_length; rewrite ?map2_length; rewrite ?length_map;
    congruence.
Qed.

Lemma add_noise_length (y ey : list (R * R)) (n0 n1 : list R) :
  length ey = length y -> length n0 = length y -> length n1 = length y ->
  length (add_noise y ey n0 n1) = length y.
Proof.
  intros He H0 H1. unfold add_noise.
  set (y0 := set_column D0 y _).
  assert (Hs : length y0 = length y).
  { apply set_column_length, noisy_column_length; assumption. }
  rewrite set_column_length; [exact Hs|].
  apply noisy_column_length; congruence.
Qed.

(** C8: every table the examples pass to the Observation constructor
    follows the input table contract for D = 2: its columns are exactly
    'v0', 'v1', 'e_v0', 'e_v1'; every row has four cells; column 'v{i}'
    holds the observed values of dimension i and column 'e_v{i}' the
    uncertainties of the same dimension, row for row. *)
Theorem tables_follow_contract (df : DataFrame) (ly : list (float * float))
  (ley : list (R * R)) :
  example_table df ly ley -> follows_contract df ly ley.
Proof.
  intros H. destruct H as [y_true n0 n1 H0 H1|irun y ey Hl].
  - apply table_of_contract.
    unfold Lognorm.y, Lognorm.ey.
    rewrite length_map, add_noise_length, make_ey_length;
      rewrite ?make_ey_length; auto.
  - apply table_of_contract.
    unfold MAR.ly, MAR.ley. destruct (irun =? 0)%nat; [assumption|].
    unfold MAR.ycc, MAR.eycc. apply mask_select_length. assumption.
Qed.

Lemma tables_follow_contract_witness :
  follows_contract
    (MAR.df 1 [(Num 1, Num 2); (NaN, Num 3)] [(0.2, 0.1); (0.2, 0.1)])
    (MAR.ly 1 [(Num 1, Num 2); (NaN, Num 3)])
    (MAR.ley 1 [(Num 1, Num 2); (NaN, Num 3)] [(0.2, 0.1); (0.2, 0.1)]).
Proof.
  apply tables_follow_contract.
  apply table_mar. reflexivity.
Defined.

(* ------------------------------------------------------------------ *)
(** ** Completely missing rows *)

Lemma all_some_map {A B : Type} (f : A -> option B) (g : A -> B)
  (l : list A) :
  (forall x, f x = Some (g x)) ->
  Leopy.all_some (map f l) = Some (map g l).
Proof.
  intros H. induction l as [|x l IH]; [reflexivity|].
  unfold Leopy.all_some in *. simpl. rewrite IH, H. reflexivity.
Qed.

Lemma observation_of_table (ly : list (float * float))
  (ley : list (R * R)) (name : string) :
  length ley = length ly -> ly <> [] ->
  Leopy.Observation (table_of ly ley) name
  = Some (Leopy.mkStore name (map record_of (combine ly ley))).
Proof.
  intros Hl Hne. unfold Leopy.Observation.
  rewrite table_rows by assumption.
  change (df_columns (table_of ly ley))
    with ["v0"; "v1"; "e_v0"; "e_v1"]%string.
  change (Nat.div (length ["v0"; "v1"; "e_v0"; "e_v1"]%string) 2)
    with 2%nat.
  destruct (map table_row (combine ly ley)) as [|l rows] eqn:E.
  - destruct ly; [contradiction|]. destruct ley; discriminate.
  - rewrite <- E, map_map.
    rewrite (all_some_map _ record_of); [reflexivity|].
    intros [[a b] [c d]]. reflexivity.
Qed.

Lemma isnan_true (f : float) : isnan f = true <-> f = NaN.
Proof. destruct f; simpl; split; congruence. Qed.

Section AllMissing.

Variable joint
  : Leopy.Likelihood -> p_args -> list (nat * (float * float)) -> R.

Lemma density_all_missing (lk : Leopy.Likelihood) (a : p_args)
  (o : Leopy.observation) :
  Forall (fun v => isnan v = true) (Leopy.values o) ->
  Leopy.density_row joint lk a o = 1.
Proof.
  intros H. unfold Leopy.density_row.
  replace (Leopy.observed_dims o) with (@nil (nat * (float * float)));
    [reflexivity|].
  unfold Leopy.observed_dims. symmetry.
  generalize (seq 0 (length (Leopy.values o))) as idx.
  generalize (Leopy.uncertainties o) as es.
  induction H as [|v vs Hv _ IH]; intros es idx.
  - destruct idx; reflexivity.
  - destruct idx as [|k idx]; [reflexivity|].
    destruct es as [|e es]; [reflexivity|].
    simpl. rewrite Hv. simpl. apply IH.
Qed.

(** C1: a row whose dimensions are all missing has density exactly 1.  In
    the full-data run of the MAR example every row of [y] is kept in the
    store, the completely missing ones included; the density vector has the
    entry 1 at each of them, so a zero entry of the vector, which is what
    triggers the objective's zero-density guard, always belongs to a row
    with an observed dimension. *)
Theorem all_missing_rows_have_density_one (y : list (float * float))
  (ey : list (R * R)) (x : list R) (rho : R) :
  length ey = length y -> y <> [] -> nth_error x 6 = Some rho ->
  let a := mkArgs (slice 0 2 x) (slice 2 4 x) (slice 4 6 x) (corr rho) in
  (forall lk a' o, Forall (fun v => isnan v = true) (Leopy.values o) ->
     Leopy.density_row joint lk a' o = 1) /\
  exists st,
    let pp := MAR.like_p joint st like a in
    MAR.obs 0 y ey = Some st /\
    length (Leopy.observations st) = length y /\
    length pp = length y /\
    Np.count (MAR.completely_missing (MAR.ly 0 y)) = MAR.ncm y /\
    (forall j, nth_error (MAR.completely_missing y) j = Some true ->
       nth_error pp j = Some 1) /\
    (forall j, nth_error pp j = Some 0 ->
       nth_error (MAR.completely_missing y) j = Some false) /\
    (In 0 pp ->
       MAR.objective joint 0 y ey x = Some (Returned PInf, [EvP like a])
       /\ exists j, nth_error pp j = Some 0 /\
            nth_error (MAR.completely_missing y) j = Some false) /\
    (~ In 0 pp ->
       MAR.objective joint 0 y ey x
       = Some (Returned (fneg (fsum (map np_log pp))),
               [EvP like a; EvLog pp])).
Proof.
  intros Hl Hne Hn a.
  split; [intros lk a' o; apply density_all_missing|].
  assert (Hobs : MAR.obs 0 y ey
                 = Some (Leopy.mkStore "test"
                           (map record_of (combine y ey)))).
  { unfold MAR.obs, MAR.df, MAR.ly, MAR.ley. simpl.
    apply observation_of_table; assumption. }
  eexists. intros pp. split; [exact Hobs|].
  assert (Hlen : length pp = length y).
  { unfold pp, MAR.like_p, Leopy.p. simpl.
    rewrite !length_map, length_combine. lia. }
  assert (Hone : forall j,
             nth_error (MAR.completely_missing y) j = Some true ->
             nth_error pp j = Some 1).
  { intros j Hj. unfold MAR.completely_missing in Hj.
    rewrite nth_error_map in Hj.
    destruct (nth_error y j) as [row|] eqn:Hy; [|discriminate].
    simpl in Hj. injection Hj as Hj. apply andb_true_iff in Hj.
    destruct Hj as [H1 H2].
    destruct (nth_error_same_length y ey j row Hl Hy) as [e He].
    unfold pp, MAR.like_p, Leopy.p. simpl.
    rewrite !nth_error_map.
    rewrite (nth_error_combine y ey j row e Hy He). simpl.
    f_equal. apply density_all_missing. simpl.
    repeat constructor; assumption. }
  assert (Hzero : forall j, nth_error pp j = Some 0 ->
             nth_error (MAR.completely_missing y) j = Some false).
  { intros j Hj.
    destruct (nth_error (MAR.completely_missing y) j) as [[|]|] eqn:E.
    - rewrite (Hone j E) in Hj. injection Hj as Hj. lra.
    - reflexivity.
    - apply nth_error_None in E.
      unfold MAR.completely_missing in E. rewrite length_map in E.
      assert (j < length pp)%nat by (apply nth_error_Some; congruence).
      lia. }
  split; [simpl; rewrite length_map, length_combine; lia|].
  split; [exact Hlen|].
  split; [reflexivity|].
  split; [exact Hone|].
  split; [exact Hzero|].
  split.
  - intros H0. split.
    + unfold MAR.objective. rewrite Hobs.
      unfold MAR.f_mlnlike. rewrite Hn. simpl. fold a. fold pp.
      apply count_zero_pos, Nat.ltb_lt in H0. rewrite H0. reflexivity.
    + apply In_nth_error in H0. destruct H0 as [j Hj].
      exists j. split; [exact Hj|apply Hzero, Hj].
  - intros H0. unfold MAR.objective. rewrite Hobs.
    unfold MAR.f_mlnlike. rewrite Hn. simpl. fold a. fold pp.
    destruct (0 <? count_zero pp)%nat eqn:E; [|reflexivity].
    apply Nat.ltb_lt, count_zero_pos in E. contradiction.
Qed.

End AllMissing.

Lemma all_missing_rows_have_density_one_witness :
  exists st,
    MAR.obs 0 [(NaN, NaN); (Num 1, NaN)] [(0.2, 0.1); (0.2, 0.1)] = Some st /\
    nth_error (MAR.like_p (fun _ _ _ => 0) st like
                 (mkArgs [0; 0] [1; 1] [1; 1] (corr 0.3))) 0 = Some 1.
Proof.
  destruct (all_missing_rows_have_density_one (fun _ _ _ => 0)
              [(NaN, NaN); (Num 1, NaN)] [(0.2, 0.1); (0.2, 0.1)]
              Lognorm.x0 0.3 eq_refl) as [_ [st H]].
  - discriminate.
  - reflexivity.
  - destruct H as (Hst & _ & _ & _ & H1 & _).
    exists st. split; [exact Hst|]. apply (H1 0%nat). reflexivity.
Defined.


(* ------------------------------------------------------------------ *)
(** ** Further properties of the objective wrappers *)

(** X1: a parameter vector with fewer than seven entries makes every wrapper
    raise IndexError at [x[6]], before any call; with seven entries or more
    a wrapper always returns a value. *)
Theorem wrappers_index_error (p : engine -> p_args -> list R)
  (w : list R -> Prog) (x : list R) :
  In w wrappers ->
  ((length x < 7)%nat -> run p (w x) = (Crashed IndexError, [])) /\
  ((7 <= length x)%nat -> exists v t, run p (w x) = (Returned v, t)).
Proof.
  intros Hw. split; intros Hlen.
  - assert (Hn : nth_error x 6 = None) by (apply nth_error_None; lia).
    each_wrapper Hw; rewrite Hn; reflexivity.
  - destruct (nth_error x 6) as [rho|] eqn:Hn;
      [|apply nth_error_None in Hn; lia].
    each_wrapper Hw; rewrite Hn; cbv zeta;
      repeat match goal with
             | |- context [if ?c then _ else _] => destruct c
             end; eauto.
Qed.

Lemma wrappers_index_error_witness :
  run (fun _ _ => [1]) (MAR.f_mlnlike [0; 0; 1; 1; 1; 1])
  = (Crashed IndexError, []).
Proof.
  apply (wrappers_index_error (fun _ _ => [1]) MAR.f_mlnlike).
  - simpl. auto.
  - simpl. lia.
Defined.

Lemma slice_firstn {A : Type} (a b n : nat) (x : list A) :
  (b <= n)%nat -> slice a b (firstn n x) = slice a b x.
Proof.
  intros H. unfold slice.
  rewrite skipn_firstn_comm, firstn_firstn.
  f_equal. lia.
Qed.

(** X2: a wrapper reads the first seven entries of its argument only:
    entries beyond [x[6]] do not change the program it runs. *)
Theorem wrappers_read_seven_entries (w : list R -> Prog) (x : list R) :
  In w wrappers -> w (firstn 7 x) = w x.
Proof.
  intros Hw.
  assert (Hn : nth_error (firstn 7 x) 6 = nth_error x 6)
    by (apply nth_error_firstn; lia).
  unfold wrappers in Hw. simpl in Hw.
  destruct Hw as [<-|[<-|[<-|[]]]];
    unfold Lognorm.f_mlnlike, Lognorm.f_mlnlike2, MAR.f_mlnlike;
    rewrite Hn, !slice_firstn by lia; reflexivity.
Qed.

Lemma wrappers_read_seven_entries_witness :
  Lognorm.f_mlnlike (firstn 7 [0; 0; 1; 1; 1; 1; 0.3; 5; 6])
  = Lognorm.f_mlnlike [0; 0; 1; 1; 1; 1; 0.3; 5; 6].
Proof.
  apply wrappers_read_seven_entries. simpl. auto.
Defined.

(** X3: a wrapper calls the engine at most once and [np.log] at most once,
    the engine first; what it hands to [np.log] are entries of the density
    vector the engine returned in that call. *)
Theorem wrappers_call_pattern (p : engine -> p_args -> list R)
  (w : list R -> Prog) (x : list R) :
  In w wrappers ->
  exists e a arr,
    (snd (run p (w x)) = [] \/
     snd (run p (w x)) = [EvP e a] \/
     snd (run p (w x)) = [EvP e a; EvLog arr]) /\
    (forall v, In v arr -> In v (p e a)).
Proof.
  intros Hw.
  destruct (nth_error x 6) as [rho|] eqn:Hn.
  - each_wrapper Hw; rewrite Hn; cbv zeta.
    + exists like, (args_of x rho), (p like (args_of x rho)).
      split; [|auto].
      destruct (any_negative_eigenvalue (corr rho)); [auto|].
      destruct (0 <? count_zero _)%nat; auto.
    + destruct (0 <? count_zero (p like2 (args_of x rho)))%nat eqn:E0.
      * exists like2, (args_of x rho),
          (positive_entries (p like2 (args_of x rho))).
        split; [|intros v Hv; apply positive_entries_pos in Hv; tauto].
        destruct (any_negative_eigenvalue (corr rho)); [auto|].
        destruct (count_zero _ <=? 7)%nat; auto.
      * exists like2, (args_of x rho), (p like2 (args_of x rho)).
        split; [|auto].
        destruct (any_negative_eigenvalue (corr rho)); auto.
    + exists like, (args_of x rho), (p like (args_of x rho)).
      split; [|auto].
      destruct (0 <? count_zero _)%nat; auto.
  - exists like, (args_of x 0), []. split; [|intros v []].
    each_wrapper Hw; rewrite Hn; auto.
Qed.

Lemma wrappers_call_pattern_witness :
  exists e a arr,
    (snd (run (fun _ _ => [0; 2]) (Lognorm.f_mlnlike2 Lognorm.x0)) = [] \/
     snd (run (fun _ _ => [0; 2]) (Lognorm.f_mlnlike2 Lognorm.x0))
       = [EvP e a] \/
     snd (run (fun _ _ => [0; 2]) (Lognorm.f_mlnlike2 Lognorm.x0))
       = [EvP e a; EvLog arr]) /\
    (forall v, In v arr -> In v [0; 2]).
Proof.
  apply (wrappers_call_pattern (fun _ _ => [0; 2]) Lognorm.f_mlnlike2).
  simpl. auto.
Defined.

(** X4: [f_mlnlike] and [f_mlnlike2] evaluate the engine exactly when
    |x[6]| <= 1.  The guard rejects |x[6]| > 1 only: the singular matrices
    of x[6] = 1 and x[6] = -1 have the eigenvalue 0, which is not negative,
    and are passed on to the engine. *)
Theorem eigen_guard_threshold (p : engine -> p_args -> list R)
  (x : list R) (rho : R) :
  nth_error x 6 = Some rho ->
  (In (EvP like (args_of x rho)) (snd (run p (Lognorm.f_mlnlike x)))
     <-> Rabs rho <= 1) /\
  (In (EvP like2 (args_of x rho)) (snd (run p (Lognorm.f_mlnlike2 x)))
     <-> Rabs rho <= 1) /\
  (1 < Rabs rho ->
     run p (Lognorm.f_mlnlike x) = (Returned (Num 1000), []) /\
     run p (Lognorm.f_mlnlike2 x) = (Returned (Num 1000), [])).
Proof.
  intros Hn. rewrite run_f_mlnlike, run_f_mlnlike2, Hn. cbv zeta.
  destruct (any_negative_eigenvalue (corr rho)) eqn:E.
  - apply any_negative_eigenvalue_iff in E.
    repeat split; simpl; try tauto; intros; lra.
  - assert (Hle : Rabs rho <= 1).
    { destruct (Rle_or_lt (Rabs rho) 1) as [|Hlt]; [assumption|].
      apply any_negative_eigenvalue_iff in Hlt. congruence. }
    split; [|split].
    + split; [intros _; exact Hle|intros _].
      destruct (0 <? count_zero _)%nat; simpl; auto.
    + split; [intros _; exact Hle|intros _].
      destruct (0 <? count_zero _)%nat; [|simpl; auto].
      destruct (count_zero _ <=? 7)%nat; simpl; auto.
    + intros H. lra.
Qed.

Lemma eigen_guard_threshold_witness :
  In (EvP like (args_of [0; 0; 1; 1; 1; 1; -1] (-1)))
     (snd (run (fun _ _ => [1]) (Lognorm.f_mlnlike [0; 0; 1; 1; 1; 1; -1]))).
Proof.
  apply (eigen_guard_threshold (fun _ _ => [1]) [0; 0; 1; 1; 1; 1; -1] (-1)
           eq_refl).
  rewrite Rabs_left by lra. lra.
Defined.

Lemma nonneg_nonzero_positive (pp : list R) :
  Forall (fun v => 0 <= v) pp -> ~ In 0 pp -> Forall (fun v => 0 < v) pp.
Proof.
  intros Hnn Hz. apply Forall_forall. intros v Hv.
  pose proof (proj1 (Forall_forall _ _) Hnn v Hv) as H.
  destruct H as [H|H]; [assumption|]. subst v. contradiction.
Qed.

Lemma positive_entries_all (pp : list R) :
  Forall (fun v => 0 < v) (positive_entries pp).
Proof.
  apply Forall_forall. intros v Hv.
  apply positive_entries_pos in Hv. tauto.
Qed.

(** X5: when the engine returns finite non-negative densities (the density
    vector is a list of real numbers here, so it holds neither an infinity
    nor NaN), the wrappers hand the minimiser a finite number or, in the MAR
    example, +inf: never NaN and never -inf. *)
Theorem wrappers_return_finite (p : engine -> p_args -> list R)
  (x : list R) :
  (forall e a, Forall (fun v => 0 <= v) (p e a)) ->
  (7 <= length x)%nat ->
  (exists r, fst (run p (Lognorm.f_mlnlike x)) = Returned (Num r)) /\
  (exists r, fst (run p (Lognorm.f_mlnlike2 x)) = Returned (Num r)) /\
  (fst (run p (MAR.f_mlnlike x)) = Returned PInf \/
   exists r, fst (run p (MAR.f_mlnlike x)) = Returned (Num r)).
Proof.
  intros Hnn Hlen.
  destruct (nth_error x 6) as [rho|] eqn:Hn;
    [|apply nth_error_None in Hn; lia].
  rewrite run_f_mlnlike, run_f_mlnlike2, run_mar_f_mlnlike, Hn. cbv zeta.
  assert (Hpos : forall e,
             (0 <? count_zero (p e (args_of x rho)))%nat = false ->
             fsum (map np_log (p e (args_of x rho)))
             = Num (Np.sum (map ln (p e (args_of x rho))))).
  { intros e E. apply fsum_log_positive, nonneg_nonzero_positive.
    - apply Hnn.
    - apply count_zero_none, E. }
  split; [|split].
  - destruct (any_negative_eigenvalue (corr rho)); [simpl; eauto|].
    destruct (0 <? count_zero (p like (args_of x rho)))%nat eqn:E;
      [simpl; eauto|].
    rewrite (Hpos like E). simpl. eauto.
  - destruct (any_negative_eigenvalue (corr rho)); [simpl; eauto|].
    destruct (0 <? count_zero (p like2 (args_of x rho)))%nat eqn:E.
    + destruct (count_zero (p like2 (args_of x rho)) <=? 7)%nat;
        [|simpl; eauto].
      rewrite fsum_log_positive by apply positive_entries_all.
      simpl. eauto.
    + rewrite (Hpos like2 E). simpl. eauto.
  - destruct (0 <? count_zero (p like (args_of x rho)))%nat eqn:E;
      [simpl; auto|].
    rewrite (Hpos like E). simpl. eauto.
Qed.

Lemma wrappers_return_finite_witness :
  exists r,
    fst (run (fun _ _ => [0.5; 2]) (Lognorm.f_mlnlike Lognorm.x0))
    = Returned (Num r).
Proof.
  apply (wrappers_return_finite (fun _ _ => [0.5; 2]) Lognorm.x0).
  - intros e a. repeat constructor; lra.
  - simpl. lia.
Defined.



Lemma positive_zero_partition (pp : list R) :
  Forall (fun v => 0 <= v) pp ->
  (length (positive_entries pp) + count_zero pp = length pp)%nat.
Proof.
  unfold positive_entries, count_zero.
  rewrite mask_select_filter, count_map.
  induction 1 as [|v pp Hv _ IH]; [reflexivity|].
  unfold Np.gtb in *. simpl.
  destruct (Np.ltb 0 v) eqn:E1; destruct (Np.eqb v 0) eqn:E2; simpl.
  - apply ltb_true in E1. apply eqb_true in E2. lra.
  - lia.
  - lia.
  - apply ltb_false in E1.
    assert (v = 0) by lra. apply eqb_true in H. congruence.
Qed.

(** X7: for finite non-negative densities, whenever [f_mlnlike2] takes a
    logarithm the array it hands to [np.log] has
    [len(pp) - np.sum(pp==0)] entries, so at most seven rows are dropped;
    and the value returned is minus the sum of the logarithms of that array
    divided by the full Ndata = 300, not by the number of rows kept. *)
Theorem partial_sum_drops_zero_rows (p : engine -> p_args -> list R)
  (x : list R) (rho : R) :
  nth_error x 6 = Some rho ->
  let pp := p like2 (mkArgs (slice 0 2 x) (slice 2 4 x) (slice 4 6 x)
                            (corr rho)) in
  let zeros :=
    length (filter (fun v => if Req_dec_T v 0 then true else false) pp) in
  Forall (fun v => 0 <= v) pp ->
  forall arr, In (EvLog arr) (snd (run p (Lognorm.f_mlnlike2 x))) ->
    (length arr + zeros = length pp)%nat /\
    (length pp <= length arr + 7)%nat /\
    fst (run p (Lognorm.f_mlnlike2 x))
    = Returned (Num (- fold_right Rplus 0 (map ln arr) / 300)).
Proof.
  intros Hn pp zeros Hnn arr.
  assert (Hz : zeros = count_zero pp)
    by (symmetry; apply count_zero_filter).
  rewrite Hz. clear Hz zeros.
  rewrite run_f_mlnlike2, Hn. cbv zeta.
  change (p like2 (args_of x rho)) with pp.
  destruct (any_negative_eigenvalue (corr rho)); [intros []|].
  destruct (0 <? count_zero pp)%nat eqn:E0.
  - destruct (count_zero pp <=? 7)%nat eqn:E7; cbn [snd fst In].
    + intros [H|[H|[]]]; [discriminate H|]. injection H as <-.
      apply Nat.leb_le in E7.
      pose proof (positive_zero_partition _ Hnn) as Hp.
      split; [exact Hp|]. split; [lia|].
      rewrite fsum_log_positive by apply positive_entries_all.
      unfold Np.sum, fdiv_pos, fneg. rewrite Ndata_300. reflexivity.
    + intros [H|[]]. discriminate H.
  - cbn [snd fst In]. intros [H|[H|[]]]; [discriminate H|].
    injection H as <-. apply Nat.ltb_ge in E0.
    split; [lia|]. split; [lia|].
    rewrite fsum_log_positive.
    + unfold Np.sum, fdiv_pos, fneg. rewrite Ndata_300. reflexivity.
    + apply nonneg_nonzero_positive; [assumption|].
      intros H0. apply count_zero_pos in H0. lia.
Qed.

Lemma partial_sum_drops_zero_rows_witness :
  fst (run (fun _ _ => [0; 2]) (Lognorm.f_mlnlike2 Lognorm.x0))
  = Returned (Num (- fold_right Rplus 0 (map ln [2]) / 300)).
Proof.
  apply (partial_sum_drops_zero_rows (fun _ _ => [0; 2]) Lognorm.x0 0.3
           eq_refl); [repeat constructor; lra|].
  rewrite run_f_mlnlike2.
  change (nth_error Lognorm.x0 6) with (Some 0.3). cbv beta iota zeta.
  rewrite no_negative_eigenvalue by (rewrite Rabs_right; lra).
  assert (E0 : Np.eqb 0 0 = true) by (apply eqb_true; reflexivity).
  assert (E2 : Np.eqb 2 0 = false).
  { destruct (Np.eqb 2 0) eqn:E; [apply eqb_true in E; lra|reflexivity]. }
  assert (G0 : Np.gtb 0 0 = false).
  { unfold Np.gtb. apply ltb_false. lra. }
  assert (G2 : Np.gtb 2 0 = true).
  { unfold Np.gtb. apply ltb_true. lra. }
  assert (Hc : count_zero [0; 2] = 1%nat).
  { unfold count_zero, Np.count. simpl. rewrite E0, E2. reflexivity. }
  assert (Hpe : positive_entries [0; 2] = [2]).
  { unfold positive_entries. simpl. rewrite G0, G2. reflexivity. }
  rewrite Hc, Hpe. simpl. auto.
Defined.

(* ------------------------------------------------------------------ *)
(** ** Further properties of the missingness masks *)

(** X10: the counts the MAR script prints are consistent.  [Ndata - ncc],
    printed as the number of incomplete rows, is the number of rows with at
    least one NaN; the completely missing rows are among them, so
    [ncc + ncm <= Ndata]; and [ycc] has [ncc] rows. *)
Theorem mar_counts_consistent (y : list (float * float)) :
  (length y - MAR.ncc y
   = Np.count (map (fun row => isnan (fst row) || isnan (snd row)) y))%nat /\
  (MAR.ncc y + MAR.ncm y <= length y)%nat /\
  length (MAR.ycc y) = MAR.ncc y.
Proof.
  unfold MAR.ncc, MAR.ncm, MAR.ycc, MAR.complete, MAR.completely_missing.
  rewrite mask_select_filter, !count_map.
  assert (H : (length (filter (fun row : float * float =>
                         negb (isnan (fst row)) && negb (isnan (snd row))) y)
               + length (filter (fun row : float * float =>
                           isnan (fst row) || isnan (snd row)) y)
               = length y)%nat /\
              (length (filter (fun row : float * float =>
                         isnan (fst row) && isnan (snd row)) y)
               <= length (filter (fun row : float * float =>
                            isnan (fst row) || isnan (snd row)) y))%nat).
  { induction y as [|[a b] y [IH1 IH2]]; [simpl; auto|].
    simpl. destruct (isnan a), (isnan b); simpl; split; lia. }
  destruct H as [H1 H2]. repeat split; lia.
Qed.

Lemma combine_map_same {A B C : Type} (f : A -> B) (g : A -> C)
  (l : list A) :
  combine (map f l) (map g l) = map (fun a => (f a, g a)) l.
Proof.
  induction l as [|a l IH]; [reflexivity|]. simpl. rewrite IH. reflexivity.
Qed.

Lemma delete_row_nan (r : R * R) (u1 u0 : R) :
  isnan (fst (delete_row r u1 u0))
    = Scipy.bernoulli_rvs u0 (logistic1 (snd r - 6)) /\
  isnan (snd (delete_row r u1 u0))
    = Scipy.bernoulli_rvs u1 (logistic1 (fst r - 3)).
Proof.
  unfold delete_row. simpl.
  destruct (Scipy.bernoulli_rvs u0 _), (Scipy.bernoulli_rvs u1 _);
    split; reflexivity.
Qed.

Lemma masks_rows (y : list (R * R)) :
  forall u1 u0, length u1 = length y -> length u0 = length y ->
  MAR.m1 y u1
  = map (fun c => Scipy.bernoulli_rvs (fst (snd c))
                    (logistic1 (fst (fst c) - 3)))
        (combine y (combine u1 u0)) /\
  MAR.m0 y u0
  = map (fun c => Scipy.bernoulli_rvs (snd (snd c))
                    (logistic1 (snd (fst c) - 6)))
        (combine y (combine u1 u0)).
Proof.
  unfold MAR.m1, MAR.m0, MAR.m1_prob, MAR.m0_prob, column, map2.
  rewrite !logistic_pointwise.
  induction y as [|r y IH]; intros [|a u1] [|b u0] H1 H0;
    try discriminate; [split; reflexivity|].
  destruct (IH u1 u0) as [I1 I0]; [simpl in *; congruence ..|].
  simpl. rewrite I1, I0. split; reflexivity.
Qed.

(** X11: after the two deletions a cell is NaN exactly where its mask is
    set: a row is complete where neither mask is set and completely missing
    where both are.  Hence [ncm] counts the rows where both draws succeeded
    and [ncc] those where neither did. *)
Theorem missing_pattern_follows_masks (y : list (R * R)) (u1 u0 : list R) :
  length u1 = length y -> length u0 = length y ->
  let ym := MAR.y_missing y u1 u0 in
  length ym = length y /\
  map (fun row => isnan (fst row)) ym = MAR.m0 y u0 /\
  map (fun row => isnan (snd row)) ym = MAR.m1 y u1 /\
  MAR.complete ym
    = map2 (fun a b => negb a && negb b) (MAR.m0 y u0) (MAR.m1 y u1) /\
  MAR.completely_missing ym = map2 andb (MAR.m0 y u0) (MAR.m1 y u1) /\
  MAR.ncm ym = Np.count (map2 andb (MAR.m0 y u0) (MAR.m1 y u1)).
Proof.
  intros H1 H0 ym.
  destruct (masks_rows y u1 u0 H1 H0) as [E1 E0].
  assert (Hym : ym = map (fun c => delete_row (fst c) (fst (snd c))
                                     (snd (snd c)))
                         (combine y (combine u1 u0)))
    by (apply y_missing_rows; assumption).
  assert (Hc : MAR.completely_missing ym
               = map2 andb (MAR.m0 y u0) (MAR.m1 y u1)).
  { unfold MAR.completely_missing. rewrite Hym, E1, E0.
    unfold map2. rewrite combine_map_same, !map_map.
    apply map_ext. intros c.
    destruct (delete_row_nan (fst c) (fst (snd c)) (snd (snd c)))
      as [Ha Hb]. rewrite Ha, Hb. reflexivity. }
  split.
  { rewrite Hym, length_map, !length_combine. lia. }
  split.
  { rewrite Hym, E0, map_map. apply map_ext. intros c.
    apply delete_row_nan. }
  split.
  { rewrite Hym, E1, map_map. apply map_ext. intros c.
    apply delete_row_nan. }
  split.
  { unfold MAR.complete. rewrite Hym, E1, E0.
    unfold map2. rewrite combine_map_same, !map_map.
    apply map_ext. intros c.
    destruct (delete_row_nan (fst c) (fst (snd c)) (snd (snd c)))
      as [Ha Hb]. rewrite Ha, Hb. reflexivity. }
  split; [exact Hc|].
  unfold MAR.ncm. rewrite Hc. reflexivity.
Qed.

Lemma missing_pattern_follows_masks_witness :
  length (MAR.y_missing [(1, 2); (3, 4)] [0.5; 0.5] [0.5; 0.5]) = 2%nat.
Proof.
  apply (missing_pattern_follows_masks [(1, 2); (3, 4)] [0.5; 0.5]
           [0.5; 0.5] eq_refl eq_refl).
Defined.

(* ------------------------------------------------------------------ *)
(** ** Further properties of the data generation *)

Lemma make_ey_rows {A : Type} (y : list (A * A)) (s0 s1 : R) :
  make_ey y s0 s1 = map (fun _ => (s0, s1)) y.
Proof.
  unfold make_ey, set_column, column.
  induction y as [|r y IH]; [reflexivity|].
  simpl. f_equal. exact IH.
Qed.

Lemma add_noise_rows (y : list (R * R)) :
  forall (ey : list (R * R)) (n0 n1 : list R),
  length ey = length y -> length n0 = length y -> length n1 = length y ->
  add_noise y ey n0 n1
  = map noisy_row (combine y (combine ey (combine n0 n1))).
Proof.
  unfold add_noise, set_column, column, map2, noisy_row.
  induction y as [|r y IH]; intros [|e ey] [|a n0] [|b n1] He H0 H1;
    try discriminate; [reflexivity|].
  simpl. f_equal. apply IH; simpl in *; congruence.
Qed.

(** X13: the measurement noise is added cell by cell and column by column.
    Row j of the noisy array is
    (y_true[j,0] + s0 * n0[j], y_true[j,1] + s1 * n1[j]) with the constant
    uncertainties (s0, s1) = (0.25, 0.1) in example_lognorm.py and
    (0.2, 0.1) in the MAR example; every row of [ey] is (s0, s1); and with
    all draws equal to zero the noisy array is the error-free one. *)
Theorem noise_is_added_rowwise (y_true : list (R * R)) (n0 n1 : list R) :
  length n0 = length y_true -> length n1 = length y_true ->
  Lognorm.ey y_true = map (fun _ => (0.25, 0.1)) y_true /\
  MAR.ey y_true = map (fun _ => (0.2, 0.1)) y_true /\
  length (Lognorm.y y_true n0 n1) = length y_true /\
  length (MAR.y_noisy y_true n0 n1) = length y_true /\
  (forall j r a b,
     nth_error y_true j = Some r -> nth_error n0 j = Some a ->
     nth_error n1 j = Some b ->
     nth_error (Lognorm.y y_true n0 n1) j
       = Some (fst r + 0.25 * a, snd r + 0.1 * b) /\
     nth_error (MAR.y_noisy y_true n0 n1) j
       = Some (fst r + 0.2 * a, snd r + 0.1 * b)) /\
  ((forall a, In a n0 -> a = 0) -> (forall b, In b n1 -> b = 0) ->
     Lognorm.y y_true n0 n1 = y_true /\
     MAR.y_noisy y_true n0 n1 = y_true).
Proof.
  intros H0 H1.
  assert (Hrows : forall s0 s1,
             add_noise y_true (make_ey y_true s0 s1) n0 n1
             = map (fun c => (fst (fst c) + s0 * fst (snd c),
                              snd (fst c) + s1 * snd (snd c)))
                   (combine y_true (combine n0 n1))).
  { intros s0 s1. rewrite add_noise_rows;
      [|apply make_ey_length|assumption|assumption].
    rewrite make_ey_rows. clear. revert n0 n1.
    induction y_true as [|r y IH]; intros [|a n0] [|b n1];
      try reflexivity.
    simpl. f_equal. apply IH. }
  split; [apply make_ey_rows|]. split; [apply make_ey_rows|].
  split.
  { unfold Lognorm.y, Lognorm.ey. rewrite Hrows, length_map,
      !length_combine. lia. }
  split.
  { unfold MAR.y_noisy, MAR.ey. rewrite Hrows, length_map,
      !length_combine. lia. }
  split.
  - intros j r a b Hr Ha Hb.
    unfold Lognorm.y, Lognorm.ey, MAR.y_noisy, MAR.ey.
    rewrite !Hrows, !nth_error_map.
    rewrite (nth_error_combine y_true (combine n0 n1) j r (a, b) Hr
               (nth_error_combine n0 n1 j a b Ha Hb)).
    split; reflexivity.
  - intros Z0 Z1.
    unfold Lognorm.y, Lognorm.ey, MAR.y_noisy, MAR.ey. rewrite !Hrows.
    clear Hrows. revert n0 n1 H0 H1 Z0 Z1.
    induction y_true as [|[t0 t1] y IH]; intros [|a n0] [|b n1] H0 H1 Z0 Z1;
      try discriminate; [split; reflexivity|].
    destruct (IH n0 n1) as [I1 I2];
      [simpl in *; congruence|simpl in *; congruence
      |intros; apply Z0; simpl; auto|intros; apply Z1; simpl; auto|].
    assert (a = 0) by (apply Z0; simpl; auto).
    assert (b = 0) by (apply Z1; simpl; auto). subst a b.
    simpl. rewrite I1, I2.
    split; f_equal; f_equal; lra.
Qed.

Lemma noise_is_added_rowwise_witness :
  nth_error (Lognorm.y [(1, 2)] [4] [10]) 0
  = Some (1 + 0.25 * 4, 2 + 0.1 * 10).
Proof.
  destruct (noise_is_added_rowwise [(1, 2)] [4] [10] eq_refl eq_refl)
    as (_ & _ & _ & _ & H & _).
  apply (H 0%nat (1, 2) 4 10); reflexivity.
Defined.

(** X14: taking complete cases is idempotent and leaves nothing missing:
    the complete-case arrays contain no NaN, none of their rows is
    completely missing, all of them count as complete, and selecting the
    complete cases of [ycc] and [eycc] again changes neither. *)
Theorem complete_cases_are_complete (y : list (float * float))
  (ey : list (R * R)) :
  length ey = length y ->
  (forall row, In row (MAR.ycc y) ->
     isnan (fst row) = false /\ isnan (snd row) = false) /\
  MAR.ncm (MAR.ycc y) = 0%nat /\
  MAR.ncc (MAR.ycc y) = length (MAR.ycc y) /\
  MAR.ycc (MAR.ycc y) = MAR.ycc y /\
  MAR.eycc (MAR.ycc y) (MAR.eycc y ey) = MAR.eycc y ey.
Proof.
  intros Hl.
  unfold MAR.ncm, MAR.ncc, MAR.eycc, MAR.ycc, MAR.complete,
    MAR.completely_missing.
  rewrite !mask_select_filter, !count_map.
  split.
  { intros row Hin. apply filter_In in Hin. destruct Hin as [_ H].
    apply andb_true_iff in H. rewrite !negb_true_iff in H. exact H. }
  revert ey Hl.
  induction y as [|[a b] y IH]; intros [|e ey] Hl; try discriminate.
  - simpl. auto.
  - destruct (IH ey) as (I1 & I2 & I3 & I4); [simpl in *; congruence|].
    simpl. destruct (isnan a) eqn:Ea; destruct (isnan b) eqn:Eb; simpl;
      rewrite ?Ea, ?Eb; simpl; repeat split; congruence.
Qed.

Lemma complete_cases_are_complete_witness :
  MAR.ycc (MAR.ycc [(Num 1, Num 2); (NaN, Num 3)])
  = MAR.ycc [(Num 1, Num 2); (NaN, Num 3)].
Proof.
  apply (complete_cases_are_complete [(Num 1, Num 2); (NaN, Num 3)]
           [(0.2, 0.1); (0.2, 0.1)] eq_refl).
Defined.

(** X12: the two deletions commute.  Assigning NaN to column 0 first and to
    column 1 second gives the same array as the order the script uses,
    because both masks were drawn beforehand and each assignment touches
    its own column only. *)
Theorem deletions_commute (y : list (R * R)) (u1 u0 : list R) :
  length u1 = length y -> length u0 = length y ->
  MAR.y_missing y u1 u0
  = let yf := map lift y in
    let yf := set_column D0 yf
                (Np.mask_fill (MAR.m0 y u0) (column D0 yf) NaN) in
    set_column D1 yf (Np.mask_fill (MAR.m1 y u1) (column D1 yf) NaN).
Proof.
  intros H1 H0. rewrite y_missing_rows by assumption.
  revert u1 u0 H1 H0.
  unfold MAR.m1, MAR.m0, MAR.m1_prob, MAR.m0_prob.
  unfold delete_row, set_column, column, map2.
  rewrite !logistic_pointwise.
  induction y as [|r y IH]; intros [|a u1] [|b u0] H1 H0;
    try discriminate; [reflexivity|].
  simpl. f_equal. apply IH; simpl in *; congruence.
Qed.

Lemma deletions_commute_witness :
  MAR.y_missing [(1, 2); (3, 4)] [0.5; 0.5] [0.5; 0.5]
  = set_column D1
      (set_column D0 (map lift [(1, 2); (3, 4)])
         (Np.mask_fill (MAR.m0 [(1, 2); (3, 4)] [0.5; 0.5])
            (column D0 (map lift [(1, 2); (3, 4)])) NaN))
      (Np.mask_fill (MAR.m1 [(1, 2); (3, 4)] [0.5; 0.5])
         (column D1
            (set_column D0 (map lift [(1, 2); (3, 4)])
               (Np.mask_fill (MAR.m0 [(1, 2); (3, 4)] [0.5; 0.5])
                  (column D0 (map lift [(1, 2); (3, 4)])) NaN))) NaN).
Proof.
  apply (deletions_commute [(1, 2); (3, 4)] [0.5; 0.5] [0.5; 0.5]);
    reflexivity.
Defined.

(** X17: a cell whose conditioning value reaches the switch of [logistic]
    is deleted whatever the draw: column 1 is always missing in a row with
    y[j,0] >= 23, and column 0 in a row with y[j,1] >= 26, the draws being
    below 1. *)
Theorem large_values_force_deletion (y : list (R * R)) (u1 u0 : list R)
  (j : nat) (r : R * R) :
  length u1 = length y -> length u0 = length y ->
  (forall u, In u u1 -> u < 1) -> (forall u, In u u0 -> u < 1) ->
  nth_error y j = Some r ->
  (23 <= fst r ->
     nth_error (MAR.m1_prob y) j = Some 1 /\
     exists c, nth_error (MAR.y_missing y u1 u0) j = Some (c, NaN)) /\
  (26 <= snd r ->
     nth_error (MAR.m0_prob y) j = Some 1 /\
     exists c, nth_error (MAR.y_missing y u1 u0) j = Some (NaN, c)).
Proof.
  intros H1 H0 U1 U0 Hr.
  destruct (nth_error_same_length y u1 j r H1 Hr) as [a Ha].
  destruct (nth_error_same_length y u0 j r H0 Hr) as [b Hb].
  assert (Hrow : nth_error (MAR.y_missing y u1 u0) j
                 = Some (delete_row r a b)).
  { rewrite y_missing_rows by assumption. rewrite nth_error_map.
    rewrite (nth_error_combine y (combine u1 u0) j r (a, b) Hr
               (nth_error_combine u1 u0 j a b Ha Hb)).
    reflexivity. }
  assert (Hone : forall v, 20 <= v -> logistic1 v = 1).
  { intros v Hv. unfold logistic1.
    destruct (Rlt_dec v 20); [lra|reflexivity]. }
  assert (Hprob : forall c, nth_error
                    (logistic (map (fun v => v - c) (column D0 y))) j
                  = Some (logistic1 (fst r - c)) /\
                  nth_error
                    (logistic (map (fun v => v - c) (column D1 y))) j
                  = Some (logistic1 (snd r - c))).
  { intros c. unfold column.
    rewrite !logistic_pointwise, !nth_error_map, Hr. split; reflexivity. }
  split; intros Hbig.
  - split.
    + unfold MAR.m1_prob. rewrite (proj1 (Hprob 3)).
      rewrite Hone by lra. reflexivity.
    + rewrite Hrow. unfold delete_row.
      rewrite (Hone (fst r - 3)) by lra.
      assert (E : Scipy.bernoulli_rvs a 1 = true).
      { apply ltb_true, U1. eapply nth_error_In, Ha. }
      rewrite E. eauto.
  - split.
    + unfold MAR.m0_prob. rewrite (proj2 (Hprob 6)).
      rewrite Hone by lra. reflexivity.
    + rewrite Hrow. unfold delete_row.
      rewrite (Hone (snd r - 6)) by lra.
      assert (E : Scipy.bernoulli_rvs b 1 = true).
      { apply ltb_true, U0. eapply nth_error_In, Hb. }
      rewrite E. eauto.
Qed.

Lemma large_values_force_deletion_witness :
  exists c,
    nth_error (MAR.y_missing [(25, 1); (2, 3)] [0.5; 0.5] [0.5; 0.5]) 0
    = Some (c, NaN).
Proof.
  apply (large_values_force_deletion [(25, 1); (2, 3)] [0.5; 0.5]
           [0.5; 0.5] 0%nat (25, 1) eq_refl eq_refl).
  - intros u [<-|[<-|[]]]; lra.
  - intros u [<-|[<-|[]]]; lra.
  - reflexivity.
  - simpl. lra.
Defined.

(* ------------------------------------------------------------------ *)
(** ** The printed summary statistics *)

Lemma exp_square_gt_1 (s : R) : s <> 0 -> 0 < exp (s ^ 2) - 1.
Proof.
  intros Hs.
  assert (0 < s ^ 2).
  { replace (s ^ 2) with (Rsqr s) by (unfold Rsqr; ring).
    apply Rsqr_pos_lt, Hs. }
  pose proof (exp_increasing 0 (s ^ 2) H) as He. rewrite exp_0 in He. lra.
Qed.

(** X15: the summary statistics are well defined.  The argument of
    [np.sqrt] is never negative, whatever the shape, so the square root is
    never taken of a negative number; and for every parameter vector within
    the optimizer's bounds that argument is positive, [mean_opt] and
    [std_opt] have two entries, no entry of [std_opt] is negative and no
    entry of [mean_opt] lies below its location parameter. *)
Theorem summary_statistics_defined (x : list R) :
  satisfies MAR.bounds x ->
  (forall shape v, In v (MAR.sqrt_args shape) -> 0 <= v) /\
  length (MAR.mean_opt x) = 2%nat /\
  length (MAR.std_opt x) = 2%nat /\
  Forall (fun v => 0 < v) (MAR.sqrt_args (slice 4 6 x)) /\
  Forall2 Rle (slice 0 2 x) (MAR.mean_opt x) /\
  Forall (fun v => 0 <= v) (MAR.std_opt x).
Proof.
  intros Hb. split.
  { intros shape v Hv. unfold MAR.sqrt_args in Hv.
    apply in_map_iff in Hv. destruct Hv as [s [<- _]].
    destruct (Req_dec_T s 0) as [->|Hs].
    - replace (0 ^ 2) with 0 by ring. rewrite exp_0. lra.
    - apply Rlt_le, exp_square_gt_1, Hs. }
  unfold satisfies, MAR.bounds in Hb. simpl in Hb.
  repeat match goal with
         | H : Forall2 _ (_ :: _) _ |- _ => inversion H; clear H; subst
         | H : Forall2 _ [] _ |- _ => inversion H; clear H; subst
         end.
  unfold within in *. simpl in *.
  unfold MAR.std_opt, MAR.mean_opt, MAR.std_stat, MAR.mean_stat,
    MAR.sqrt_args, map2, slice. simpl.
  repeat match goal with
         | H : _ /\ _ |- _ => destruct H
         end.
  match goal with
  | |- _ /\ _ /\ Forall _ [exp ?a2 - 1; exp ?b2 - 1] /\
       Forall2 _ _ [_ * exp (_ * (?a * _)) + _; _ * exp (_ * (?b * _)) + _]
       /\ _ =>
      assert (Ha : 0 < exp a2 - 1) by (apply (exp_square_gt_1 a); lra);
      assert (Hb' : 0 < exp b2 - 1) by (apply (exp_square_gt_1 b); lra);
      pose proof (exp_pos (0.5 * a2));
      pose proof (exp_pos (0.5 * b2));
      pose proof (sqrt_lt_R0 _ Ha); pose proof (sqrt_lt_R0 _ Hb')
  end.
  split; [reflexivity|]. split; [reflexivity|].
  split; [repeat constructor; assumption|].
  split; [repeat constructor; nra|].
  constructor; [|constructor; [|constructor]];
    (apply Rmult_le_pos; [nra|apply Rlt_le; assumption]).
Qed.

Lemma summary_statistics_defined_witness :
  length (MAR.std_opt [0; 2; 1; 3; 0.5; 1.5; 0.5]) = 2%nat.
Proof.
  apply (summary_statistics_defined [0; 2; 1; 3; 0.5; 1.5; 0.5]).
  unfold satisfies, MAR.bounds, within. simpl.
  repeat constructor; simpl; lra.
Defined.
